(** * Decision posets, decision trees and their concept lattices

    A shallow embedding of [DecisionLattice_evaluation/decision_tree_structure.py]:
    the two comparison functions, [ClassificationRule], [DecisionPOSet]
    (with [DecisionTree], which adds no code of its own) and
    [concept_lattice_from_decision_tree].

    Python objects that are mutated in place and may be shared (the ordered
    set of premises, the list of targets, the decision poset itself) live in
    a store and are referred to by location; a method is a computation over
    the store that either returns a value or raises, and whatever it wrote
    before raising stays written.

    The classes the module imports from [fcapy] are not part of it; what the
    module needs of them is modelled from the specification and marked so,
    and where the library is known to do otherwise than the specification
    says, the model follows the library and says so.
    The string renderings ([__repr__], [to_str]) and [__hash__] are not
    embedded. *)

From stdpp Require Import gmap strings list fin_maps sets.
From Stdlib Require Import ZArith Lia.

Local Open Scope nat_scope.

(** ** Python prelude: exceptions, results, list primitives *)
Module Py.

(** The exceptions the module can surface.  [OrderedSetError] and
    [ContextError] stand for whatever the ordered-set primitive raises on a
    failed lookup and the formal context on an unknown name; the source
    neither catches nor wraps them.
    [DanglingReference] is not a Python exception: it marks a read of a
    location the store does not hold, which no Python program can perform. *)
Inductive exn : Set :=
| ValueError
| AssertionError
| NotImplementedError
| IndexError
| TypeError
| OrderedSetError
| ContextError
| DanglingReference.

Inductive result (X : Type) : Type :=
| Ok (x : X)
| Raise (e : exn).
Global Arguments Ok {X} x.
Global Arguments Raise {X} e.

Definition rbind {X Y} (r : result X) (k : X → result Y) : result Y :=
  match r with
  | Ok x => k x
  | Raise e => Raise e
  end.

(** [[f(x) for x in l]] for an [f] that may raise. *)
Fixpoint rmap {X Y} (f : X → result Y) (l : list X) : result (list Y) :=
  match l with
  | [] => Ok []
  | x :: l' => rbind (f x) (λ y, rbind (rmap f l') (λ ys, Ok (y :: ys)))
  end.

(** A computation over a store [S]. *)
Definition M (S X : Type) : Type := S → result X * S.

Definition ret {S X} (x : X) : M S X := λ s, (Ok x, s).
Definition raise {S X} (e : exn) : M S X := λ s, (Raise e, s).
Definition bind {S X Y} (m : M S X) (k : X → M S Y) : M S Y :=
  λ s, match m s with
       | (Ok x, s') => k x s'
       | (Raise e, s') => (Raise e, s')
       end.
Definition lift {S X} (r : result X) : M S X := λ s, (r, s).

(** [l[i]] for a non-negative [i]. *)
Definition getitem {X} (l : list X) (i : nat) : result X :=
  match l !! i with
  | Some x => Ok x
  | None => Raise IndexError
  end.

(** [list.index]: the position of the first equal item. *)
Definition list_index `{EqDecision X} (l : list X) (x : X) : result nat :=
  match list_find (λ y, y = x) l with
  | Some (i, _) => Ok i
  | None => Raise ValueError
  end.

(** Subscripts accepted by [del l[key]]: an integer or a slice. *)
Inductive key : Set :=
| KInt (i : Z)
| KSlice (start stop step : option Z).

(** Clamping of one slice bound to a sequence of length [len]. *)
Definition adjust_bound (len step : Z) (b : Z) : Z :=
  if (b <? 0)%Z then
    let b' := (b + len)%Z in
    if (b' <? 0)%Z then (if (step <? 0)%Z then (-1)%Z else 0%Z) else b'
  else if (len <=? b)%Z then (if (step <? 0)%Z then (len - 1)%Z else len)
  else b.

(** [slice(start, stop, step).indices(len)], for a non-zero step. *)
Definition slice_indices (len : Z) (start stop step : option Z) : Z * Z * Z :=
  let st := default 1%Z step in
  let lo := match start with
            | Some b => adjust_bound len st b
            | None => if (st <? 0)%Z then (len - 1)%Z else 0%Z
            end in
  let hi := match stop with
            | Some b => adjust_bound len st b
            | None => if (st <? 0)%Z then (-1)%Z else len
            end in
  (lo, hi, st).

(** Whether [i] is one of [range(lo, hi, st)]. *)
Definition in_range (lo hi st : Z) (i : nat) : bool :=
  let z := Z.of_nat i in
  if (0 <? st)%Z
  then (lo <=? z)%Z && (z <? hi)%Z && ((z - lo) mod st =? 0)%Z
  else (hi <? z)%Z && (z <=? lo)%Z && ((lo - z) mod (- st) =? 0)%Z.

(** The items of [l] whose position, counted from [i], is not selected. *)
Fixpoint drop_selected {X} (sel : nat → bool) (i : nat) (l : list X) : list X :=
  match l with
  | [] => []
  | x :: l' =>
      if sel i then drop_selected sel (S i) l'
      else x :: drop_selected sel (S i) l'
  end.

(** [del l[key]] on a list: the list afterwards, or the exception. *)
Definition delitem {X} (l : list X) (k : key) : result (list X) :=
  let len := Z.of_nat (length l) in
  match k with
  | KInt i =>
      let j := if (i <? 0)%Z then (i + len)%Z else i in
      if (j <? 0)%Z || (len <=? j)%Z then Raise IndexError
      else Ok (drop_selected (λ n, bool_decide (n = Z.to_nat j)) 0 l)
  | KSlice start stop step =>
      if bool_decide (step = Some 0%Z) then Raise ValueError
      else
        let '(lo, hi, st) := slice_indices len start stop step in
        Ok (drop_selected (in_range lo hi st) 0 l)
  end.

End Py.
Import Py.

Declare Scope py_scope.
Delimit Scope py_scope with py.
Notation "'let!' x ':=' e 'in' k" := (bind e (λ x, k))
  (at level 10, x name, e at level 100, k at level 200,
   format "'[v' 'let!'  x  ':='  e  'in' '/' k ']'") : py_scope.
Notation "e ';;' k" := (bind e (λ _, k))
  (at level 100, k at level 200, right associativity) : py_scope.
Local Open Scope py_scope.

(** ** Comparison functions *)

Section Compare.
Context {A : Type} `{Countable A}.

(** [set(b) & set(a) == set(b)] *)
Definition compare_set_function (a b : list A) : bool :=
  bool_decide ((list_to_set b : gset A) ∩ list_to_set a = list_to_set b).

End Compare.

(** ** Classification rules *)

Record ClassificationRule (P T : Type) : Type := mkRule {
  premise : P;
  target : T;
}.
Global Arguments mkRule {P T} premise target.
Global Arguments premise {P T} _.
Global Arguments target {P T} _.

Definition compare_premise_function {A T : Type} `{Countable A}
    (a b : ClassificationRule (list A) T) : bool :=
  compare_set_function (premise a) (premise b).

(** [ClassificationRule.__eq__] *)
Definition ClassificationRule__eq__ {P T : Type} `{EqDecision P} `{EqDecision T}
    (self other : ClassificationRule P T) : bool :=
  bool_decide (premise self = premise other)
  && bool_decide (target self = target other).

(** ** The ordered-set primitive

    [fcapy.poset.POSet] is imported, not defined, by the module. *)

Section OrderedSet.
Context {P : Type} `{EqDecision P}.

(** Modelled from the spec: the class [POSet] of [fcapy.poset], of which the
    module has only the import.  It stores a sequence of elements and the
    caller's less-or-equal predicate; the memo tables that [use_cache] turns
    on hold nothing the predicate does not determine and are left out. *)
Record POSet : Type := mkPOSet {
  poset_elements : list P;
  leq_func : P → P → bool;
  use_cache : bool;
}.

(** Modelled from the spec: [POSet.__len__], the number of stored elements. *)
Definition POSet__len__ (s : POSet) : nat := length (poset_elements s).

(** Modelled from the spec: [POSet.index(element)], the position of the
    element; a lookup failure is the primitive's own error. *)
Definition POSet_index (s : POSet) (element : P) : result nat :=
  match list_find (λ y, y = element) (poset_elements s) with
  | Some (i, _) => Ok i
  | None => Raise OrderedSetError
  end.

(** Modelled from the spec: [POSet.add(element)] on the sequence of unique
    elements: an element that is not stored yet is appended.  Of an element
    that is stored already the spec says that the call fails; the library's
    call returns and leaves the sequence as it is, and the model follows the
    library. *)
Definition POSet_add (s : POSet) (element : P) : result POSet :=
  if bool_decide (element ∈ poset_elements s) then Ok s
  else Ok (mkPOSet (poset_elements s ++ [element]) (leq_func s) (use_cache s)).

(** Modelled from the spec: [POSet.__delitem__(key)], removal by position
    from the stored sequence, with the positions and the [IndexError] of a
    Python list.  The spec speaks of a slice as well; the library's ordered
    set deletes one element at a time: for a slice of step 0 it raises
    [ValueError], for any other slice [TypeError], and nothing is removed.
    The model follows the library. *)
Definition POSet__delitem__ (s : POSet) (k : key) : result POSet :=
  match k with
  | KInt _ =>
      rbind (delitem (poset_elements s) k)
            (λ l, Ok (mkPOSet l (leq_func s) (use_cache s)))
  | KSlice _ _ step =>
      if bool_decide (step = Some 0%Z) then Raise ValueError
      else Raise TypeError
  end.

(** Modelled from the spec: [POSet.leq_elements(a_index, b_index)]. *)
Definition POSet_leq_elements (s : POSet) (a_index b_index : nat) : result bool :=
  rbind (getitem (poset_elements s) a_index) (λ a,
  rbind (getitem (poset_elements s) b_index) (λ b,
  Ok (leq_func s a b))).

(** Whether element [i] is strictly below element [j]. *)
Definition POSet_below (s : POSet) (i j : nat) : bool :=
  match poset_elements s !! i, poset_elements s !! j with
  | Some a, Some b => bool_decide (i ≠ j) && leq_func s a b
  | _, _ => false
  end.

Definition POSet_indices (s : POSet) : list nat := seq 0 (POSet__len__ s).

(** Modelled from the spec: [POSet.sub_elements(i)], the indices of the
    elements smaller than element [i]. *)
Definition POSet_sub_elements (s : POSet) (i : nat) : gset nat :=
  list_to_set (filter (λ j, POSet_below s j i = true) (POSet_indices s)).

(** Modelled from the spec: [POSet.super_elements(i)], the indices of the
    elements bigger than element [i]. *)
Definition POSet_super_elements (s : POSet) (i : nat) : gset nat :=
  list_to_set (filter (λ j, POSet_below s i j = true) (POSet_indices s)).

(** Modelled from the spec: [POSet.direct_sub_elements(i)], the covering
    relation: the smaller elements with nothing strictly in between. *)
Definition POSet_direct_sub_elements (s : POSet) (i : nat) : gset nat :=
  list_to_set
    (filter (λ j, POSet_below s j i = true
                  ∧ Forall (λ k, ¬ (POSet_below s j k = true
                                     ∧ POSet_below s k i = true))
                           (POSet_indices s))
            (POSet_indices s)).

(** Modelled from the spec: [POSet.direct_super_elements(i)]. *)
Definition POSet_direct_super_elements (s : POSet) (i : nat) : gset nat :=
  list_to_set
    (filter (λ j, POSet_below s i j = true
                  ∧ Forall (λ k, ¬ (POSet_below s i k = true
                                     ∧ POSet_below s k j = true))
                           (POSet_indices s))
            (POSet_indices s)).

(** Modelled from the spec: [POSet.top_elements], the maximal elements. *)
Definition POSet_top_elements (s : POSet) : list nat :=
  filter (λ i, POSet_super_elements s i = ∅) (POSet_indices s).

(** Modelled from the spec: [POSet.bottom_elements], the minimal elements. *)
Definition POSet_bottom_elements (s : POSet) : list nat :=
  filter (λ i, POSet_sub_elements s i = ∅) (POSet_indices s).

(** Modelled from the spec: [POSet.direct_sub_elements_dict], the covering
    relation as a dictionary from every index to its direct sub-elements. *)
Definition POSet_direct_sub_elements_dict (s : POSet) : gmap nat (gset nat) :=
  list_to_map ((λ i, (i, POSet_direct_sub_elements s i)) <$> POSet_indices s).

End OrderedSet.
Global Arguments POSet P : clear implicits.

(** Modelled from the spec: [POSet.__init__]; a pre-supplied
    [direct_subelements_dict] only seeds the memo tables. *)
Definition POSet__init__ {P : Type} (elements : list P) (leq_func : P → P → bool)
    (use_cache : bool) (direct_subelements_dict : option (gmap nat (gset nat)))
    : POSet P :=
  mkPOSet elements leq_func use_cache.

(** ** The store and decision posets *)

Abbreviation loc := nat (only parsing).

Section DecisionPOSet.
Context {P T : Type} `{Countable P} `{EqDecision T}.

(** The fields [DecisionPOSet.__init__] assigns.  [_premises] and [_targets]
    hold references: the ordered set and the target list are objects of
    their own, possibly the caller's. *)
Record DecisionPOSet : Type := mkDecisionPOSet {
  _premises : loc;
  _targets : loc;
  _elements_to_index_map : gmap P nat;
  _use_cache : bool;
}.

Record store : Type := mkStore {
  posets : gmap nat (POSet P);
  lists : gmap nat (list T);
  dposets : gmap nat DecisionPOSet;
}.

Definition empty_store : store := mkStore ∅ ∅ ∅.

Definition new_poset (s : POSet P) : M store loc := λ h,
  let l := fresh (dom (posets h)) in
  (Ok l, mkStore (<[l := s]> (posets h)) (lists h) (dposets h)).

Definition read_poset (l : loc) : M store (POSet P) := λ h,
  match posets h !! l with
  | Some s => (Ok s, h)
  | None => (Raise DanglingReference, h)
  end.

Definition write_poset (l : loc) (s : POSet P) : M store unit := λ h,
  (Ok tt, mkStore (<[l := s]> (posets h)) (lists h) (dposets h)).

Definition new_list (ts : list T) : M store loc := λ h,
  let l := fresh (dom (lists h)) in
  (Ok l, mkStore (posets h) (<[l := ts]> (lists h)) (dposets h)).

Definition read_list (l : loc) : M store (list T) := λ h,
  match lists h !! l with
  | Some ts => (Ok ts, h)
  | None => (Raise DanglingReference, h)
  end.

Definition write_list (l : loc) (ts : list T) : M store unit := λ h,
  (Ok tt, mkStore (posets h) (<[l := ts]> (lists h)) (dposets h)).

Definition new_dposet (d : DecisionPOSet) : M store loc := λ h,
  let l := fresh (dom (dposets h)) in
  (Ok l, mkStore (posets h) (lists h) (<[l := d]> (dposets h))).

Definition read_dposet (l : loc) : M store DecisionPOSet := λ h,
  match dposets h !! l with
  | Some d => (Ok d, h)
  | None => (Raise DanglingReference, h)
  end.

Definition write_dposet (l : loc) (d : DecisionPOSet) : M store unit := λ h,
  (Ok tt, mkStore (posets h) (lists h) (<[l := d]> (dposets h))).

(** [s.add(element)] on the ordered set at [l]. *)
Definition poset_add (l : loc) (element : P) : M store unit :=
  let! s := read_poset l in
  let! s' := lift (POSet_add s element) in
  write_poset l s'.

(** [del s[k]] on the ordered set at [l]. *)
Definition poset_delitem (l : loc) (k : key) : M store unit :=
  let! s := read_poset l in
  let! s' := lift (POSet__delitem__ s k) in
  write_poset l s'.

(** [ts.append(t)] on the list at [l]. *)
Definition list_append (l : loc) (t : T) : M store unit :=
  let! ts := read_list l in
  write_list l (ts ++ [t]).

(** [del ts[k]] on the list at [l]. *)
Definition list_delitem (l : loc) (k : key) : M store unit :=
  let! ts := read_list l in
  let! ts' := lift (delitem ts k) in
  write_list l ts'.

(** What the caller passes as [premises]: any iterable of premises, or an
    ordered set that already exists. *)
Inductive premises_arg : Type :=
| PremisesIter (elements : list P)
| PremisesPOSet (l : loc).

(** [{p: p_i for p_i, p in enumerate(premises)}] *)
Definition elements_to_index_map (premises : list P) : gmap P nat :=
  foldl (λ m ip, <[ip.2 := ip.1]> m) ∅ (imap pair premises).

(** [DecisionPOSet.__init__].  [leq_premise_func] is taken as a function:
    the default [None] is of use to no order query. *)
Definition DecisionPOSet__init__
    (classification_rules : option (list (ClassificationRule P T)))
    (premises : option premises_arg) (targets : option loc)
    (use_cache : bool) (leq_premise_func : P → P → bool)
    (direct_subelements_dict : option (gmap nat (gset nat))) : M store loc :=
  let! args :=
    match classification_rules with
    | Some rules =>
        let! ts := new_list (target <$> rules) in
        ret (PremisesIter (premise <$> rules), ts)
    | None =>
        match premises, targets with
        | Some ps, Some ts => ret (ps, ts)
        | _, _ => raise ValueError
        end
    end in
  let! premises :=
    match args.1 with
    | PremisesPOSet l => ret l
    | PremisesIter elements =>
        new_poset (POSet__init__ elements leq_premise_func use_cache
                                 direct_subelements_dict)
    end in
  let! ps := read_poset premises in
  if bool_decide (size (list_to_set (poset_elements ps) : gset P)
                  = length (poset_elements ps))
  then new_dposet (mkDecisionPOSet premises args.2
                     (elements_to_index_map (poset_elements ps)) use_cache)
  else raise AssertionError.

(** [DecisionPOSet.premises]: the ordered set the decision poset refers to. *)
Definition DecisionPOSet_premises (self : loc) : M store (POSet P) :=
  let! d := read_dposet self in
  read_poset (_premises d).

(** [DecisionPOSet.targets] *)
Definition DecisionPOSet_targets (self : loc) : M store (list T) :=
  let! d := read_dposet self in
  read_list (_targets d).

(** [DecisionPOSet.classification_rules]; [zip] stops at the shorter one. *)
Definition DecisionPOSet_classification_rules (self : loc)
    : M store (list (ClassificationRule P T)) :=
  let! ps := DecisionPOSet_premises self in
  let! ts := DecisionPOSet_targets self in
  ret (zip_with mkRule (poset_elements ps) ts).

(** [DecisionPOSet.elements] *)
Definition DecisionPOSet_elements (self : loc)
    : M store (list (ClassificationRule P T)) :=
  DecisionPOSet_classification_rules self.

(** [DecisionPOSet.index] *)
Definition DecisionPOSet_index (self : loc) (element : ClassificationRule P T)
    : M store (option nat) :=
  let! ps := DecisionPOSet_premises self in
  let! p_i := lift (POSet_index ps (premise element)) in
  let! ts := DecisionPOSet_targets self in
  let! t := lift (getitem ts p_i) in
  if bool_decide (t = target element) then ret (Some p_i) else ret None.

(** [DecisionPOSet.leq_elements] *)
Definition DecisionPOSet_leq_elements (self : loc) (a_index b_index : nat)
    : M store bool :=
  let! ps := DecisionPOSet_premises self in
  lift (POSet_leq_elements ps a_index b_index).

(** [DecisionPOSet.__and__] *)
Definition DecisionPOSet__and__ {O : Type} (self : loc) (other : O)
    : M store loc :=
  raise NotImplementedError.

(** [DecisionPOSet.__or__] *)
Definition DecisionPOSet__or__ {O : Type} (self : loc) (other : O)
    : M store loc :=
  raise NotImplementedError.

(** [DecisionPOSet.__xor__] *)
Definition DecisionPOSet__xor__ {O : Type} (self : loc) (other : O)
    : M store loc :=
  raise NotImplementedError.

(** [DecisionPOSet.__sub__] *)
Definition DecisionPOSet__sub__ {O : Type} (self : loc) (other : O)
    : M store loc :=
  raise NotImplementedError.

(** [DecisionPOSet.__len__] *)
Definition DecisionPOSet__len__ (self : loc) : M store nat :=
  let! ps := DecisionPOSet_premises self in
  ret (POSet__len__ ps).

(** [DecisionPOSet.__delitem__] *)
Definition DecisionPOSet__delitem__ (self : loc) (k : key) : M store unit :=
  let! d := read_dposet self in
  poset_delitem (_premises d) k ;;
  list_delitem (_targets d) k ;;
  let! ps := DecisionPOSet_premises self in
  write_dposet self (mkDecisionPOSet (_premises d) (_targets d)
                       (elements_to_index_map (poset_elements ps))
                       (_use_cache d)).

(** [DecisionPOSet.add]; [fill_up_cache] is not used by the body. *)
Definition DecisionPOSet_add (self : loc) (element : ClassificationRule P T)
    (fill_up_cache : bool) : M store unit :=
  let! d := read_dposet self in
  poset_add (_premises d) (premise element) ;;
  list_append (_targets d) (target element) ;;
  let! ps := DecisionPOSet_premises self in
  write_dposet self (mkDecisionPOSet (_premises d) (_targets d)
                       (elements_to_index_map (poset_elements ps))
                       (_use_cache d)).

(** [DecisionPOSet.__eq__] *)
Definition DecisionPOSet__eq__ {O : Type} (self : loc) (other : O)
    : M store bool :=
  raise NotImplementedError.

(** [DecisionPOSet.trace_element] *)
Definition DecisionPOSet_trace_element (self : loc)
    (element : ClassificationRule P T) (direction : string)
    : M store (gset nat) :=
  raise NotImplementedError.

(** [DecisionPOSet.super_elements] *)
Definition DecisionPOSet_super_elements (self : loc) (element_index : nat)
    : M store (gset nat) :=
  let! ps := DecisionPOSet_premises self in
  ret (POSet_super_elements ps element_index).

(** [DecisionPOSet.sub_elements] *)
Definition DecisionPOSet_sub_elements (self : loc) (element_index : nat)
    : M store (gset nat) :=
  let! ps := DecisionPOSet_premises self in
  ret (POSet_sub_elements ps element_index).

(** [DecisionPOSet.direct_super_elements] *)
Definition DecisionPOSet_direct_super_elements (self : loc) (element_index : nat)
    : M store (gset nat) :=
  let! ps := DecisionPOSet_premises self in
  ret (POSet_direct_super_elements ps element_index).

(** [DecisionPOSet.direct_sub_elements] *)
Definition DecisionPOSet_direct_sub_elements (self : loc) (element_index : nat)
    : M store (gset nat) :=
  let! ps := DecisionPOSet_premises self in
  ret (POSet_direct_sub_elements ps element_index).

(** [DecisionPOSet.top_elements] *)
Definition DecisionPOSet_top_elements (self : loc) : M store (list nat) :=
  let! ps := DecisionPOSet_premises self in
  ret (POSet_top_elements ps).

End DecisionPOSet.
Global Arguments DecisionPOSet P {_ _}.
Global Arguments store P T {_ _}.
Global Arguments premises_arg P : clear implicits.

(** [class DecisionTree(DecisionPOSet, BinaryTree): pass]: the constructor
    and every method are [DecisionPOSet]'s. *)
Abbreviation DecisionTree := DecisionPOSet (only parsing).

(** ** Formal contexts, formal concepts, concept lattices

    [fcapy.context.FormalContext], [fcapy.lattice.formal_concept.FormalConcept]
    and [fcapy.lattice.ConceptLattice] are imported, not defined, by the
    module. *)

(** Modelled from the spec: the class [FormalContext], of which the module
    has only the import: the object names, the attribute names, the
    incidence between them and a stable fingerprint. *)
Record FormalContext : Type := mkFormalContext {
  object_names : list string;
  attribute_names : list string;
  incidence : string → string → bool;
  fingerprint : N;
}.

(** Modelled from the spec: [FormalContext.extension], the objects that have
    all of the given attributes; an attribute outside the context's
    attribute universe is the context's own error. *)
Definition FormalContext_extension (context : FormalContext)
    (attributes : list string) : result (list string) :=
  if bool_decide (Forall (λ m, m ∈ attribute_names context) attributes)
  then Ok (filter (λ g, Forall (λ m, incidence context g m = true) attributes)
                  (object_names context))
  else Raise ContextError.

(** Modelled from the spec: [FormalContext.intention], the attributes common
    to all of the given objects. *)
Definition FormalContext_intention (context : FormalContext)
    (objects : list string) : result (list string) :=
  if bool_decide (Forall (λ g, g ∈ object_names context) objects)
  then Ok (filter (λ m, Forall (λ g, incidence context g m = true) objects)
                  (attribute_names context))
  else Raise ContextError.

(** Modelled from the spec: [FormalContext.hash_fixed], the fingerprint. *)
Definition FormalContext_hash_fixed (context : FormalContext) : N :=
  fingerprint context.

(** Modelled from the spec: the class [FormalConcept], of which the module
    has only the import; it keeps what its constructor is given. *)
Record FormalConcept : Type := mkFormalConcept {
  extent_i : list nat;
  extent : list string;
  intent_i : list nat;
  intent : list string;
  context_hash : N;
}.

(** Modelled from the spec: the class [ConceptLattice], of which the module
    has only the import: a list of concepts and the dictionary from a
    concept's index to the indices of its direct sub-concepts.  The record
    holds the two arguments the converter passes to the constructor; what
    the constructor does with them (its own checks, the entries it adds to
    the dictionary) is the library's and is not modelled. *)
Record ConceptLattice : Type := mkConceptLattice {
  concepts : list FormalConcept;
  subconcepts_dict : gmap nat (gset nat);
}.

(** ** The converter *)

Section Converter.
Context {T : Type} `{EqDecision T}.

(** [concept_lattice_from_decision_tree].  The premises of a tree that is
    converted are sequences of attribute names, as [context.attribute_names]
    is; the model has one type for them and compares them item by item.
    [deepcopy] of the ordered set is a new object with the same contents;
    [deepcopy] of the dictionary is the dictionary, a value here.
    [len(concepts) - 1] is taken on naturals: the list is never empty,
    [premises] holding the attribute list after [add]. *)
Definition concept_lattice_from_decision_tree (context : FormalContext)
    (dt : loc) : M (store (list string) T) ConceptLattice :=
  let! dt_premises := DecisionPOSet_premises dt in
  let! premises := new_poset dt_premises in
  poset_add premises (attribute_names context) ;;
  let! ps := read_poset premises in
  let! extents :=
    lift (rmap (FormalContext_extension context) (poset_elements ps)) in
  let! intents := lift (rmap (FormalContext_intention context) extents) in
  let! extents_i :=
    lift (rmap (rmap (list_index (object_names context))) extents) in
  let! intents_i :=
    lift (rmap (rmap (list_index (attribute_names context))) intents) in
  let context_hash := FormalContext_hash_fixed context in
  let! concepts :=
    lift (rmap (λ c_i,
                  rbind (getitem extents_i c_i) (λ ei,
                  rbind (getitem extents c_i) (λ e,
                  rbind (getitem intents_i c_i) (λ ii,
                  rbind (getitem intents c_i) (λ i,
                  Ok (mkFormalConcept ei e ii i context_hash))))))
               (seq 0 (POSet__len__ ps))) in
  let! dt_premises := DecisionPOSet_premises dt in
  let sbc_dict := POSet_direct_sub_elements_dict dt_premises in
  let bc_i := length concepts - 1 in
  let! dt_premises := DecisionPOSet_premises dt in
  let sbc_dict :=
    foldl (λ d el_i, <[el_i := {[bc_i]}]> d) sbc_dict
          (POSet_bottom_elements dt_premises) in
  ret (mkConceptLattice concepts sbc_dict).

End Converter.

(** ** A worked example

    Three rules over the attributes [a], [b], [c], with the premises
    [()], [("a", "b")] and [("c",)], ordered by the module's own
    [compare_set_function], and a context of three objects. *)

Definition example_rules : list (ClassificationRule (list string) string) :=
  [mkRule [] "yes"; mkRule ["a"; "b"] "no"; mkRule ["c"] "yes"].

(** The store after [DecisionTree(classification_rules=example_rules,
    leq_premise_func=compare_set_function)]; the tree is at location 0. *)
Definition example_store : store (list string) string :=
  (DecisionPOSet__init__ (Some example_rules) None None true
     compare_set_function None empty_store).2.

Definition example_context : FormalContext :=
  mkFormalContext ["g1"; "g2"; "g3"] ["a"; "b"; "c"]
    (λ g m, bool_decide ((g, m) ∈ [("g1", "a"); ("g1", "b"); ("g2", "a");
                                   ("g3", "a"); ("g3", "c")]))
    7%N.

(** The store after [DecisionPOSet(premises=[("a",)], targets=["x", "y"],
    leq_premise_func=compare_set_function)]: the constructor takes the two
    sequences as they come.  The decision poset is at location 0. *)
Definition mismatched_store : store (list string) string :=
  ((let! targets := new_list ["x"; "y"] in
    DecisionPOSet__init__ None (Some (PremisesIter [["a"]])) (Some targets)
      true compare_set_function None) empty_store).2.

Definition full_rules : list (ClassificationRule (list string) string) :=
  [mkRule [] "yes"; mkRule ["a"; "b"; "c"] "no"].

(** The store after [DecisionTree(classification_rules=full_rules,
    leq_premise_func=compare_set_function)]: the second premise is the
    attribute list of [example_context].  The tree is at location 0. *)
Definition full_store : store (list string) string :=
  (DecisionPOSet__init__ (Some full_rules) None None true
     compare_set_function None empty_store).2.

(** ** Notions used in the statements *)

(** A computation that leaves the store as it found it. *)
Definition read_only {S X} (m : M S X) : Prop := ∀ s, (m s).2 = s.

Section Notions.
Context {P T : Type} `{Countable P} `{EqDecision T}.

(** [len(dp.premises) == len(dp.targets)] for the decision poset at [self]. *)
Definition synced (h : store P T) (self : loc) : Prop :=
  ∃ d ps ts,
    dposets h !! self = Some d ∧ posets h !! _premises d = Some ps
    ∧ lists h !! _targets d = Some ts
    ∧ length (poset_elements ps) = length ts.

(** The premises the constructor ends up checking: those of the rules when
    rules are given, else those passed as [premises]. *)
Definition supplied_premises (h : store P T)
    (classification_rules : option (list (ClassificationRule P T)))
    (premises : option (premises_arg P)) : option (list P) :=
  match classification_rules, premises with
  | Some rules, _ => Some (premise <$> rules)
  | None, Some (PremisesIter elements) => Some elements
  | None, Some (PremisesPOSet l) => poset_elements <$> posets h !! l
  | None, None => None
  end.

(** The decision poset at [self] refers to an ordered set and a target list
    the store holds, and its premises are pairwise distinct. *)
Definition unique_premises (h : store P T) (self : loc) : Prop :=
  ∃ d ps ts,
    dposets h !! self = Some d ∧ posets h !! _premises d = Some ps
    ∧ lists h !! _targets d = Some ts
    ∧ NoDup (poset_elements ps).

(** The decision poset [d] at [self] after its sequences became [ps'] and
    [ts'] and its index map was rebuilt. *)
Definition updated (h : store P T) (self : loc) (d : DecisionPOSet P)
    (ps' : POSet P) (ts' : list T) : store P T :=
  mkStore (<[_premises d := ps']> (posets h))
          (<[_targets d := ts']> (lists h))
          (<[self := mkDecisionPOSet (_premises d) (_targets d)
                       (elements_to_index_map (poset_elements ps'))
                       (_use_cache d)]> (dposets h)).

End Notions.

(** What [concept_lattice_from_decision_tree] computes once it holds the
    tree's ordered set [orig] and its own extended copy [copy]: the part of
    its body that does not touch the store. *)
Definition lattice_of (context : FormalContext)
    (orig copy : POSet (list string)) : result ConceptLattice :=
  rbind (rmap (FormalContext_extension context) (poset_elements copy))
    (λ extents,
  rbind (rmap (FormalContext_intention context) extents) (λ intents,
  rbind (rmap (rmap (list_index (object_names context))) extents)
    (λ extents_i,
  rbind (rmap (rmap (list_index (attribute_names context))) intents)
    (λ intents_i,
  rbind (rmap (λ c_i,
                 rbind (getitem extents_i c_i) (λ ei,
                 rbind (getitem extents c_i) (λ e,
                 rbind (getitem intents_i c_i) (λ ii,
                 rbind (getitem intents c_i) (λ i,
                 Ok (mkFormalConcept ei e ii i
                       (FormalContext_hash_fixed context)))))))
              (seq 0 (POSet__len__ copy))) (λ concepts,
  Ok (mkConceptLattice concepts
        (foldl (λ d el_i, <[el_i := {[length concepts - 1]}]> d)
               (POSet_direct_sub_elements_dict orig)
               (POSet_bottom_elements orig)))))))).


(** ** Further notions and examples *)

Section FurtherNotions.
Context {P T : Type} `{Countable P} `{EqDecision T}.

(** The index map the decision poset at [self] holds is the one of its
    current premises. *)
Definition index_map_current (h : store P T) (self : loc) : Prop :=
  ∃ d ps,
    dposets h !! self = Some d ∧ posets h !! _premises d = Some ps
    ∧ _elements_to_index_map d = elements_to_index_map (poset_elements ps).

End FurtherNotions.

(** The position an integer subscript stands for in a sequence of [n]
    items. *)
Definition position (n : nat) (i : Z) : nat :=
  Z.to_nat (if (i <? 0)%Z then (i + Z.of_nat n)%Z else i).

(** The store after [DecisionPOSet(premises=[("a",), ("b",)], targets=["x"],
    leq_premise_func=compare_set_function)]: two premises, one target.  The
    decision poset is at location 0. *)
Definition short_targets_store : store (list string) string :=
  ((let! targets := new_list ["x"] in
    DecisionPOSet__init__ None (Some (PremisesIter [["a"]; ["b"]]))
      (Some targets) true compare_set_function None) empty_store).2.

(** A store with the caller's list [["x"]] and the caller's ordered set of
    the one element [("a",)], each at location 0 of its kind. *)
Definition shared_store : store (list string) string :=
  ((let! targets := new_list ["x"] in
    new_poset (mkPOSet [["a"]] compare_set_function true)) empty_store).2.

Definition single_rules : list (ClassificationRule (list string) string) :=
  [mkRule ["a"; "b"; "c"] "no"].

(** The store after [DecisionTree(classification_rules=single_rules,
    leq_premise_func=compare_set_function)]: the one premise is the
    attribute list of [example_context].  The tree is at location 0. *)
Definition single_store : store (list string) string :=
  (DecisionPOSet__init__ (Some single_rules) None None true
     compare_set_function None empty_store).2.

(** The store after [DecisionTree(classification_rules=[],
    leq_premise_func=compare_set_function)].  The tree is at location 0. *)
Definition empty_tree_store : store (list string) string :=
  (DecisionPOSet__init__ (Some []) None None true
     compare_set_function None empty_store).2.

(** * Properties *)

(** ** Computations over the store *)

Lemma rbind_ok {X Y} (r : result X) (k : X → result Y) y :
  rbind r k = Ok y → ∃ x, r = Ok x ∧ k x = Ok y.
Proof. destruct r as [x|e]; simpl; [eauto | discriminate]. Qed.

Lemma rmap_length {X Y} (f : X → result Y) l l' :
  rmap f l = Ok l' → length l' = length l.
Proof.
  revert l'. induction l as [|x l IH]; intros l' Hl; simpl in Hl.
  - by inversion Hl.
  - apply rbind_ok in Hl as (y & _ & Hl).
    apply rbind_ok in Hl as (ys & Hys & Hl).
    inversion Hl; subst. simpl. f_equal. by apply IH.
Qed.

Lemma rmap_lookup {X Y} (f : X → result Y) l l' i y :
  rmap f l = Ok l' → l' !! i = Some y → ∃ x, l !! i = Some x ∧ f x = Ok y.
Proof.
  revert l' i. induction l as [|x l IH]; intros l' i Hl Hi; simpl in Hl.
  - inversion Hl; subst. by rewrite lookup_nil in Hi.
  - apply rbind_ok in Hl as (y0 & Hy0 & Hl).
    apply rbind_ok in Hl as (ys & Hys & Hl).
    inversion Hl; subst. destruct i as [|i]; simpl in *.
    + inversion Hi; subst. eauto.
    + eauto.
Qed.

Lemma rmap_total {X Y} (f : X → result Y) l :
  Forall (λ x, ∃ y, f x = Ok y) l → ∃ l', rmap f l = Ok l'.
Proof.
  induction 1 as [|x l [y Hy] _ [ys Hys]]; simpl; [eauto|].
  rewrite Hy, Hys. simpl. eauto.
Qed.

Lemma read_only_ret {S X} (x : X) : read_only (ret (S := S) x).
Proof. done. Qed.

Lemma read_only_raise {S X} e : read_only (raise (S := S) (X := X) e).
Proof. done. Qed.

Lemma read_only_lift {S X} (r : result X) : read_only (lift (S := S) r).
Proof. done. Qed.

Lemma read_only_bind {S X Y} (m : M S X) (k : X → M S Y) :
  read_only m → (∀ x, read_only (k x)) → read_only (bind m k).
Proof.
  intros Hm Hk s. unfold bind. specialize (Hm s).
  destruct (m s) as [[x|e] s']; simpl in *; subst; [apply Hk | done].
Qed.

Lemma read_only_run {S X} (m : M S X) s r s' :
  read_only m → m s = (r, s') → s' = s.
Proof. intros Hm Hrun. specialize (Hm s). by rewrite Hrun in Hm. Qed.

Create HintDb read_only.
#[export] Hint Resolve read_only_ret read_only_raise read_only_lift : read_only.

Section StoreFacts.
Context {P T : Type} `{Countable P} `{EqDecision T}.
Implicit Types (h : store P T) (d : DecisionPOSet P) (ps : POSet P).

Lemma read_only_read_poset l : read_only (read_poset (P := P) (T := T) l).
Proof. intros h. unfold read_poset. by destruct (posets h !! l). Qed.

Lemma read_only_read_list l : read_only (read_list (P := P) (T := T) l).
Proof. intros h. unfold read_list. by destruct (lists h !! l). Qed.

Lemma read_only_read_dposet l : read_only (read_dposet (P := P) (T := T) l).
Proof. intros h. unfold read_dposet. by destruct (dposets h !! l). Qed.

Lemma read_only_premises self :
  read_only (DecisionPOSet_premises (P := P) (T := T) self).
Proof.
  apply read_only_bind; [apply read_only_read_dposet|].
  intros d. apply read_only_read_poset.
Qed.

Lemma read_only_targets self :
  read_only (DecisionPOSet_targets (P := P) (T := T) self).
Proof.
  apply read_only_bind; [apply read_only_read_dposet|].
  intros d. apply read_only_read_list.
Qed.

Lemma run_premises h self d ps :
  dposets h !! self = Some d → posets h !! _premises d = Some ps →
  DecisionPOSet_premises self h = (Ok ps, h).
Proof.
  intros Hd Hps. unfold DecisionPOSet_premises, bind, read_dposet, read_poset.
  by rewrite Hd, Hps.
Qed.

Lemma run_targets h self d ts :
  dposets h !! self = Some d → lists h !! _targets d = Some ts →
  DecisionPOSet_targets self h = (Ok ts, h).
Proof.
  intros Hd Hts. unfold DecisionPOSet_targets, bind, read_dposet, read_list.
  by rewrite Hd, Hts.
Qed.

End StoreFacts.

#[export] Hint Resolve read_only_read_poset read_only_read_list
  read_only_read_dposet read_only_premises read_only_targets : read_only.

Lemma read_only_if {S X} (b : bool) (m1 m2 : M S X) :
  read_only m1 → read_only m2 → read_only (if b then m1 else m2).
Proof. by destruct b. Qed.

#[export] Hint Resolve read_only_bind read_only_if : read_only.

Section QueryFacts.
Context {P T : Type} `{Countable P} `{EqDecision T}.

(** The queries of a decision poset leave the store as it was, whatever
    they return or raise. *)
Lemma DecisionPOSet_queries_read_only self
    (element : ClassificationRule P T) a_index b_index :
  read_only (DecisionPOSet_index self element)
  ∧ read_only (DecisionPOSet__len__ (P := P) (T := T) self)
  ∧ read_only (DecisionPOSet_classification_rules (P := P) (T := T) self)
  ∧ read_only (DecisionPOSet_leq_elements (P := P) (T := T)
                 self a_index b_index)
  ∧ read_only (DecisionPOSet_super_elements (P := P) (T := T) self a_index)
  ∧ read_only (DecisionPOSet_sub_elements (P := P) (T := T) self a_index)
  ∧ read_only (DecisionPOSet_direct_super_elements (P := P) (T := T)
                 self a_index)
  ∧ read_only (DecisionPOSet_direct_sub_elements (P := P) (T := T)
                 self a_index)
  ∧ read_only (DecisionPOSet_top_elements (P := P) (T := T) self).
Proof.
  unfold DecisionPOSet_index, DecisionPOSet__len__,
    DecisionPOSet_classification_rules, DecisionPOSet_leq_elements,
    DecisionPOSet_super_elements, DecisionPOSet_sub_elements,
    DecisionPOSet_direct_super_elements, DecisionPOSet_direct_sub_elements,
    DecisionPOSet_top_elements.
  split_and!; eauto 12 with read_only.
Qed.

End QueryFacts.

(** ** Comparison functions *)

Section CompareFacts.
Context {A T : Type} `{Countable A}.

Lemma compare_set_function_subseteq (a b : list A) :
  compare_set_function a b = true
  ↔ (list_to_set b : gset A) ⊆ list_to_set a.
Proof.
  unfold compare_set_function. rewrite bool_decide_eq_true. set_solver.
Qed.

(** C10. [compare_set_function a b] is true exactly when every element of
    [b] is an element of [a]; [compare_premise_function] is
    [compare_set_function] on the premises of the two rules; and for
    distinct [x] and [y] the singleton is not below the pair while the pair
    is below the singleton. *)
Theorem compare_set_function_reverse_inclusion
    (a b : list A) (ra rb : ClassificationRule (list A) T) (x y : A) :
  x ≠ y →
  (compare_set_function a b = true
     ↔ (list_to_set b : gset A) ⊆ list_to_set a)
  ∧ compare_premise_function ra rb
    = compare_set_function (premise ra) (premise rb)
  ∧ compare_set_function [x] [x; y] = false
  ∧ compare_set_function [x; y] [x] = true.
Proof.
  intros Hxy. split; [apply compare_set_function_subseteq|].
  split; [done|]. split.
  - apply not_true_is_false. rewrite compare_set_function_subseteq.
    intros Hsub. assert (Hy : y ∈ (list_to_set [x; y] : gset A)) by set_solver.
    apply Hsub in Hy. set_solver.
  - apply compare_set_function_subseteq. set_solver.
Qed.

End CompareFacts.

Lemma compare_set_function_reverse_inclusion_witness :
  "a" ≠ "b"
  ∧ (compare_set_function ["a"; "b"; "c"] ["c"; "a"] = true
       ↔ (list_to_set ["c"; "a"] : gset string) ⊆ list_to_set ["a"; "b"; "c"])
  ∧ compare_premise_function (mkRule ["a"; "b"] 1) (mkRule ["a"] 0)
    = compare_set_function ["a"; "b"] ["a"]
  ∧ compare_set_function ["a"] ["a"; "b"] = false
  ∧ compare_set_function ["a"; "b"] ["a"] = true.
Proof.
  split; [discriminate|].
  apply (compare_set_function_reverse_inclusion
           ["a"; "b"; "c"] ["c"; "a"] (mkRule ["a"; "b"] 1) (mkRule ["a"] 0)
           "a" "b").
  discriminate.
Defined.

(** ** Decision posets *)

Section DecisionPOSetFacts.
Context {P T : Type} `{Countable P} `{EqDecision T}.
Implicit Types (h : store P T) (d : DecisionPOSet P) (ps : POSet P).
Implicit Types (ts : list T) (element : ClassificationRule P T).

(** *** Unsupported operations *)

(** C7. [__and__], [__or__], [__xor__], [__sub__], [__eq__] and
    [trace_element] raise [NotImplementedError] on every receiver, operand
    and store, and leave the store as it was. *)
Theorem unsupported_operations_raise {O : Type} h self (other : O) element
    direction :
  DecisionPOSet__and__ self other h = (Raise NotImplementedError, h)
  ∧ DecisionPOSet__or__ self other h = (Raise NotImplementedError, h)
  ∧ DecisionPOSet__xor__ self other h = (Raise NotImplementedError, h)
  ∧ DecisionPOSet__sub__ self other h = (Raise NotImplementedError, h)
  ∧ DecisionPOSet__eq__ self other h = (Raise NotImplementedError, h)
  ∧ DecisionPOSet_trace_element self element direction h
    = (Raise NotImplementedError, h).
Proof. repeat split. Qed.

(** *** Construction *)

Lemma size_list_to_set_le (l : list P) :
  size (list_to_set l : gset P) ≤ length l.
Proof.
  induction l as [|x l IH].
  - by rewrite list_to_set_nil, size_empty.
  - rewrite list_to_set_cons. cbn [length].
    destruct (decide (x ∈ l)) as [Hin|Hin].
    + assert (({[x]} ∪ list_to_set l : gset P) = list_to_set l) as ->
        by set_solver.
      lia.
    + rewrite size_union by set_solver. rewrite size_singleton. lia.
Qed.

Lemma size_list_to_set_NoDup (l : list P) :
  size (list_to_set l : gset P) = length l ↔ NoDup l.
Proof.
  split; [|apply size_list_to_set].
  induction l as [|x l IH]; intros Hsize; [constructor|].
  rewrite list_to_set_cons in Hsize. cbn [length] in Hsize.
  destruct (decide (x ∈ l)) as [Hin|Hin].
  - assert (({[x]} ∪ list_to_set l : gset P) = list_to_set l) as Heq
      by set_solver.
    rewrite Heq in Hsize. pose proof (size_list_to_set_le l). lia.
  - rewrite size_union in Hsize by set_solver.
    rewrite size_singleton in Hsize. constructor; [done|].
    apply IH. lia.
Qed.

Lemma init_run_unique h classification_rules premises targets use_cache
    leq_premise_func direct_subelements_dict l :
  (is_Some classification_rules ∨ (is_Some premises ∧ is_Some targets)) →
  supplied_premises h classification_rules premises = Some l →
  ∃ h1 pl tl s1,
    posets h1 !! pl = Some s1 ∧ poset_elements s1 = l ∧
    dposets h1 = dposets h ∧
    (∀ k x, lists h !! k = Some x → lists h1 !! k = Some x) ∧
    (match classification_rules with
     | Some rules => lists h1 !! tl = Some (target <$> rules)
     | None => targets = Some tl
     end) ∧
    DecisionPOSet__init__ classification_rules premises targets use_cache
      leq_premise_func direct_subelements_dict h
    = if bool_decide (NoDup l)
      then new_dposet (mkDecisionPOSet pl tl (elements_to_index_map l)
                         use_cache) h1
      else (Raise AssertionError, h1).
Proof.
  intros Hargs Hsup. unfold DecisionPOSet__init__.
  destruct classification_rules as [rules|]; simpl in Hsup.
  - inversion Hsup; subst; clear Hsup.
    eexists _, (fresh (dom (posets h))), (fresh (dom (lists h))), _.
    split_and!; cycle -1.
    + unfold bind at 1 2. simpl. unfold bind at 1 2. simpl.
      unfold bind, read_poset. simpl. rewrite lookup_insert_eq. simpl.
      rewrite (bool_decide_ext _ _ (size_list_to_set_NoDup _)).
      destruct (bool_decide (NoDup _)); reflexivity.
    + simpl. by rewrite lookup_insert_eq.
    + done.
    + done.
    + intros k x Hk. simpl. rewrite lookup_insert_ne; [done|].
      intros <-. apply (is_fresh (dom (lists h))).
      apply elem_of_dom. eauto.
    + simpl. by rewrite lookup_insert_eq.
  - destruct Hargs as [[? [=]]|[[pa ->] [tl ->]]].
    destruct pa as [elements|l0]; simpl in Hsup.
    + inversion Hsup; subst; clear Hsup.
      eexists _, (fresh (dom (posets h))), tl, _.
      split_and!; cycle -1.
      * unfold bind at 1 2. simpl. unfold bind at 1. simpl.
        unfold bind, read_poset. simpl. rewrite lookup_insert_eq. simpl.
        rewrite (bool_decide_ext _ _ (size_list_to_set_NoDup _)).
        destruct (bool_decide (NoDup _)); reflexivity.
      * simpl. by rewrite lookup_insert_eq.
      * done.
      * done.
      * done.
      * done.
    + destruct (posets h !! l0) as [ps|] eqn:Hps; [|discriminate].
      inversion Hsup; subst; clear Hsup.
      exists h, l0, tl, ps. split_and!; cycle -1.
      * unfold bind at 1 2. simpl. unfold bind at 1. simpl.
        unfold bind, read_poset. rewrite Hps. simpl.
        rewrite (bool_decide_ext _ _ (size_list_to_set_NoDup _)).
        destruct (bool_decide (NoDup _)); reflexivity.
      * done.
      * done.
      * done.
      * done.
      * done.
Qed.

(** C8. With no rules and an incomplete (premises, targets) pair the
    constructor raises [ValueError]; with rules or a complete pair whose
    premises contain a duplicate it raises [AssertionError]; either way the
    store holds no decision poset it did not hold before. *)
Theorem DecisionPOSet__init___rejects h classification_rules premises targets
    use_cache leq_premise_func direct_subelements_dict :
  (classification_rules = None → premises = None ∨ targets = None →
   DecisionPOSet__init__ classification_rules premises targets use_cache
     leq_premise_func direct_subelements_dict h = (Raise ValueError, h))
  ∧ (∀ l,
       is_Some classification_rules ∨ (is_Some premises ∧ is_Some targets) →
       supplied_premises h classification_rules premises = Some l →
       ¬ NoDup l →
       ∃ h', DecisionPOSet__init__ classification_rules premises targets
               use_cache leq_premise_func direct_subelements_dict h
             = (Raise AssertionError, h')
             ∧ dposets h' = dposets h).
Proof.
  split.
  - intros -> Hpair. unfold DecisionPOSet__init__, bind.
    destruct Hpair as [-> | ->]; [done|]. by destruct premises.
  - intros l Hargs Hsup Hdup.
    destruct (init_run_unique h classification_rules premises targets
                use_cache leq_premise_func direct_subelements_dict l Hargs Hsup)
      as (h1 & pl & tl & s1 & _ & _ & Hd & _ & _ & Hrun).
    rewrite bool_decide_eq_false_2 in Hrun by done. eauto.
Qed.

End DecisionPOSetFacts.

Lemma DecisionPOSet__init___rejects_witness :
  DecisionPOSet__init__ (T := string) None (Some (PremisesIter [["a"]])) None
    true compare_set_function None empty_store
  = (Raise ValueError, empty_store)
  ∧ ∃ h', DecisionPOSet__init__
            (Some [mkRule ["a"] "yes"; mkRule ["b"] "no"; mkRule ["a"] "no"])
            None None true compare_set_function None empty_store
          = (Raise AssertionError, h')
          ∧ dposets h' = dposets (empty_store (T := string)).
Proof.
  split.
  - apply (DecisionPOSet__init___rejects (T := string) empty_store None
             (Some (PremisesIter [["a"]])) None true compare_set_function None);
      [reflexivity | right; reflexivity].
  - apply (DecisionPOSet__init___rejects empty_store
             (Some [mkRule ["a"] "yes"; mkRule ["b"] "no"; mkRule ["a"] "no"])
             None None true compare_set_function None)
      with (l := [["a"]; ["b"]; ["a"]]).
    + left. eexists. reflexivity.
    + reflexivity.
    + intros Hnd. apply NoDup_cons in Hnd as [Hnotin _].
      apply Hnotin. apply list_elem_of_further, list_elem_of_here.
Defined.

Section IndexFacts.
Context {P T : Type} `{Countable P} `{EqDecision T}.
Implicit Types (h : store P T) (d : DecisionPOSet P) (ps : POSet P).
Implicit Types (ts : list T) (element : ClassificationRule P T).

Lemma POSet_index_ok ps p i :
  POSet_index ps p = Ok i → poset_elements ps !! i = Some p.
Proof.
  unfold POSet_index.
  destruct (list_find _ _) as [[j y]|] eqn:Hfind; [|discriminate].
  intros [= <-]. apply list_find_Some in Hfind as (Hj & -> & _). done.
Qed.

Lemma POSet_index_first ps p i :
  poset_elements ps !! i = Some p →
  (∀ j, j < i → poset_elements ps !! j ≠ Some p) →
  POSet_index ps p = Ok i.
Proof.
  intros Hi Hfirst. unfold POSet_index.
  destruct (list_find _ _) as [[j y]|] eqn:Hfind.
  - apply list_find_Some in Hfind as (Hj & -> & Hmin).
    destruct (Nat.lt_trichotomy j i) as [Hlt|[->|Hgt]]; [|done|].
    + by destruct (Hfirst j Hlt).
    + by destruct (Hmin i p Hi Hgt).
  - apply list_find_None in Hfind.
    rewrite Forall_forall in Hfind.
    destruct (Hfind p); [|done]. eapply list_elem_of_lookup_2; eauto.
Qed.

Lemma POSet_index_lookup ps p i :
  NoDup (poset_elements ps) → poset_elements ps !! i = Some p →
  POSet_index ps p = Ok i.
Proof.
  intros Hnd Hi. apply POSet_index_first; [done|].
  intros j Hlt Hj. pose proof (NoDup_lookup _ _ _ _ Hnd Hi Hj). lia.
Qed.

Lemma POSet_index_absent ps p :
  p ∉ poset_elements ps → POSet_index ps p = Raise OrderedSetError.
Proof.
  intros Hp. unfold POSet_index.
  destruct (list_find _ _) as [[j y]|] eqn:Hfind; [|done].
  apply list_find_Some in Hfind as (Hj & -> & _).
  destruct Hp. eapply list_elem_of_lookup_2; eauto.
Qed.

Lemma run_index h self d ps ts element :
  dposets h !! self = Some d → posets h !! _premises d = Some ps →
  lists h !! _targets d = Some ts →
  DecisionPOSet_index self element h
  = (rbind (POSet_index ps (premise element)) (λ p_i,
     rbind (getitem ts p_i) (λ t,
     Ok (if bool_decide (t = target element) then Some p_i else None))), h).
Proof.
  intros Hd Hps Hts. unfold DecisionPOSet_index.
  unfold bind at 1. rewrite (run_premises h self d ps Hd Hps).
  unfold bind at 1, lift at 1.
  destruct (POSet_index ps (premise element)) as [p_i|e]; simpl; [|done].
  unfold bind at 1. rewrite (run_targets h self d ts Hd Hts).
  unfold bind, lift. destruct (getitem ts p_i) as [t|e]; simpl; [|done].
  by destruct (bool_decide (t = target element)).
Qed.

(** C1, as the code has it.  For a decision poset in the store (its
    premises unique, as the constructor demands) [index] of the rule
    [(p, t)] returns [i] when premise [i] is [p] and target [i] is [t], and
    only then; it returns [None] when [p] is premise [i] and target [i] is
    another target; and when [p] is not among the premises the lookup error
    of the ordered set comes out, no value is returned.  The store is the
    same afterwards in each case. *)
Theorem DecisionPOSet_index_spec h self d ps ts p t i :
  dposets h !! self = Some d → posets h !! _premises d = Some ps →
  lists h !! _targets d = Some ts → NoDup (poset_elements ps) →
  (poset_elements ps !! i = Some p → ts !! i = Some t →
   DecisionPOSet_index self (mkRule p t) h = (Ok (Some i), h))
  ∧ (DecisionPOSet_index self (mkRule p t) h = (Ok (Some i), h) →
     poset_elements ps !! i = Some p ∧ ts !! i = Some t)
  ∧ (∀ t', poset_elements ps !! i = Some p → ts !! i = Some t' → t' ≠ t →
     DecisionPOSet_index self (mkRule p t) h = (Ok None, h))
  ∧ (p ∉ poset_elements ps →
     DecisionPOSet_index self (mkRule p t) h = (Raise OrderedSetError, h)).
Proof.
  intros Hd Hps Hts Hnd.
  rewrite (run_index h self d ps ts (mkRule p t) Hd Hps Hts). simpl.
  split_and!.
  - intros Hp Ht. rewrite (POSet_index_lookup ps p i Hnd Hp). simpl.
    unfold getitem. rewrite Ht. simpl. by rewrite bool_decide_eq_true_2.
  - intros Hrun.
    destruct (POSet_index ps p) as [j|e] eqn:Hj; simpl in Hrun; [|by inversion Hrun].
    apply POSet_index_ok in Hj. unfold getitem in Hrun.
    destruct (ts !! j) as [t0|] eqn:Ht0; simpl in Hrun; [|by inversion Hrun].
    destruct (bool_decide (t0 = t)) eqn:Hdec; [|by inversion Hrun].
    apply bool_decide_eq_true in Hdec. inversion Hrun; subst. done.
  - intros t' Hp Ht' Hne. rewrite (POSet_index_lookup ps p i Hnd Hp). simpl.
    unfold getitem. rewrite Ht'. simpl. by rewrite bool_decide_eq_false_2.
  - intros Hp. by rewrite (POSet_index_absent ps p Hp).
Qed.

End IndexFacts.

Lemma DecisionPOSet_index_spec_witness :
  DecisionPOSet_index 0 (mkRule ["a"; "b"] "no") example_store
  = (Ok (Some 1), example_store)
  ∧ DecisionPOSet_index 0 (mkRule ["a"; "b"] "yes") example_store
    = (Ok None, example_store)
  ∧ DecisionPOSet_index 0 (mkRule ["b"] "no") example_store
    = (Raise OrderedSetError, example_store).
Proof.
  assert (Hnd : NoDup (premise <$> example_rules))
    by (apply (bool_decide_unpack _); vm_compute; exact I).
  split_and!.
  - eapply (DecisionPOSet_index_spec example_store 0 _ _ _
              ["a"; "b"] "no" 1); try reflexivity.
    exact Hnd.
  - eapply (DecisionPOSet_index_spec example_store 0 _ _ _
              ["a"; "b"] "yes" 1); try reflexivity.
    + exact Hnd.
    + discriminate.
  - eapply (DecisionPOSet_index_spec example_store 0 _ _ _
              ["b"] "no" 0); try reflexivity.
    + exact Hnd.
    + apply (bool_decide_unpack _). vm_compute. exact I.
Defined.

(** The third clause of C1 as the claim has it fails: the rule
    [(("b",), "no")] has a premise that is not in the example tree, and
    [index] raises instead of returning [None]. *)
Lemma DecisionPOSet_index_absent_counterexample :
  (DecisionPOSet_classification_rules 0 example_store).1 = Ok example_rules
  ∧ ¬ (["b"] ∈ premise <$> example_rules)
  ∧ (DecisionPOSet_index 0 (mkRule ["b"] "no") example_store).1
    = Raise OrderedSetError
  ∧ (DecisionPOSet_index 0 (mkRule ["b"] "no") example_store).1 ≠ Ok None.
Proof.
  split_and!.
  - reflexivity.
  - apply (bool_decide_unpack _); vm_compute; exact I.
  - reflexivity.
  - vm_compute; discriminate.
Qed.

(** *** The ordered set's [add] *)

Section AddFacts.
Context {P : Type} `{EqDecision P}.
Implicit Types (ps : POSet P) (p : P).

Lemma POSet_add_new ps p :
  p ∉ poset_elements ps →
  POSet_add ps p
  = Ok (mkPOSet (poset_elements ps ++ [p]) (leq_func ps) (use_cache ps)).
Proof. intros Hnew. unfold POSet_add. by rewrite bool_decide_eq_false_2. Qed.

Lemma POSet_add_present ps p :
  p ∈ poset_elements ps → POSet_add ps p = Ok ps.
Proof. intros Hin. unfold POSet_add. by rewrite bool_decide_eq_true_2. Qed.

End AddFacts.

(** *** Mutation *)

Section MutationFacts.
Context {P T : Type} `{Countable P} `{EqDecision T}.
Implicit Types (h : store P T) (d : DecisionPOSet P) (ps : POSet P).
Implicit Types (ts : list T) (element : ClassificationRule P T).

Ltac run_store :=
  repeat first
    [ progress cbn [posets lists dposets fst snd]
    | rewrite lookup_insert_eq
    | match goal with
      | Hl : ?m !! ?l = Some _ |- context [?m !! ?l] => rewrite Hl
      end ].

Lemma run_add h self d ps ts element fill_up_cache :
  dposets h !! self = Some d → posets h !! _premises d = Some ps →
  lists h !! _targets d = Some ts →
  DecisionPOSet_add self element fill_up_cache h
  = match POSet_add ps (premise element) with
    | Ok ps' => (Ok tt, updated h self d ps' (ts ++ [target element]))
    | Raise e => (Raise e, h)
    end.
Proof.
  intros Hd Hps Hts.
  unfold DecisionPOSet_add, poset_add, list_append, DecisionPOSet_premises,
    bind, read_dposet, read_poset, read_list, write_poset, write_list,
    write_dposet, lift.
  run_store. destruct (POSet_add ps (premise element)) as [ps'|e]; [|done].
  run_store. reflexivity.
Qed.

Lemma run_delitem h self d ps ts k :
  dposets h !! self = Some d → posets h !! _premises d = Some ps →
  lists h !! _targets d = Some ts →
  DecisionPOSet__delitem__ self k h
  = match POSet__delitem__ ps k with
    | Ok ps' =>
        match delitem ts k with
        | Ok ts' => (Ok tt, updated h self d ps' ts')
        | Raise e =>
            (Raise e, mkStore (<[_premises d := ps']> (posets h))
                              (lists h) (dposets h))
        end
    | Raise e => (Raise e, h)
    end.
Proof.
  intros Hd Hps Hts.
  unfold DecisionPOSet__delitem__, poset_delitem, list_delitem,
    DecisionPOSet_premises, bind, read_dposet, read_poset, read_list,
    write_poset, write_list, write_dposet, lift.
  run_store. destruct (POSet__delitem__ ps k) as [ps'|e]; [|done].
  run_store. destruct (delitem ts k) as [ts'|e]; [|done].
  run_store. reflexivity.
Qed.

Lemma drop_selected_length {X Y} sel i (l1 : list X) (l2 : list Y) :
  length l1 = length l2 →
  length (drop_selected sel i l1) = length (drop_selected sel i l2).
Proof.
  revert i l2. induction l1 as [|x l1 IH]; intros i [|y l2] Hlen;
    simpl in *; try done.
  injection Hlen as Hlen. destruct (sel i); simpl; auto.
Qed.

Lemma delitem_shape {X Y} (l1 : list X) (l2 : list Y) k :
  length l1 = length l2 →
  (∃ e, delitem l1 k = Raise e ∧ delitem l2 k = Raise e)
  ∨ (∃ a b, delitem l1 k = Ok a ∧ delitem l2 k = Ok b
            ∧ length a = length b).
Proof.
  intros Hlen. unfold delitem. rewrite <- Hlen.
  destruct k as [i|start stop step].
  - destruct (_ || _); [left; eauto|].
    right. eexists _, _. split_and!; [done..|].
    by apply drop_selected_length.
  - destruct (bool_decide _); [left; eauto|].
    destruct (slice_indices _ _ _ _) as [[lo hi] st].
    right. eexists _, _. split_and!; [done..|].
    by apply drop_selected_length.
Qed.

Lemma synced_updated h self d ps' ts' :
  length (poset_elements ps') = length ts' →
  synced (updated h self d ps' ts') self.
Proof.
  intros Hlen. eexists _, ps', ts'. unfold updated. cbn [posets lists dposets].
  split_and!; [apply lookup_insert_eq| | |done].
  - cbn [_premises]. apply lookup_insert_eq.
  - cbn [_targets]. apply lookup_insert_eq.
Qed.

Lemma add_preserves_synced h self d ps element fill_up_cache out h' :
  synced h self →
  dposets h !! self = Some d → posets h !! _premises d = Some ps →
  premise element ∉ poset_elements ps →
  DecisionPOSet_add self element fill_up_cache h = (out, h') →
  synced h' self.
Proof.
  intros (d0 & ps0 & ts & Hd0 & Hps0 & Hts & Hlen) Hd Hps Hnew Hrun.
  rewrite Hd in Hd0. injection Hd0 as <-.
  rewrite Hps in Hps0. injection Hps0 as <-.
  rewrite (run_add h self d ps ts element fill_up_cache Hd Hps Hts) in Hrun.
  rewrite POSet_add_new in Hrun by done.
  inversion Hrun; subst. apply synced_updated.
  cbn [poset_elements]. rewrite !length_app. simpl. lia.
Qed.

Lemma add_present_appends h self d ps ts element fill_up_cache :
  dposets h !! self = Some d → posets h !! _premises d = Some ps →
  lists h !! _targets d = Some ts →
  premise element ∈ poset_elements ps →
  ∃ h1,
    DecisionPOSet_add self element fill_up_cache h = (Ok tt, h1)
    ∧ DecisionPOSet__len__ self h1 = (Ok (length (poset_elements ps)), h1)
    ∧ DecisionPOSet_targets self h1 = (Ok (ts ++ [target element]), h1).
Proof.
  intros Hd Hps Hts Hin.
  set (d1 := mkDecisionPOSet (_premises d) (_targets d)
               (elements_to_index_map (poset_elements ps)) (_use_cache d)).
  exists (updated h self d ps (ts ++ [target element])). split_and!.
  - rewrite (run_add h self d ps ts element fill_up_cache Hd Hps Hts).
    by rewrite POSet_add_present.
  - unfold DecisionPOSet__len__, bind.
    rewrite (run_premises _ self d1 ps); [done|apply lookup_insert_eq..].
  - rewrite (run_targets _ self d1 (ts ++ [target element]));
      [done|apply lookup_insert_eq..].
Qed.

Lemma delitem_preserves_synced h self k out h' :
  synced h self →
  DecisionPOSet__delitem__ self k h = (out, h') →
  synced h' self.
Proof.
  intros (d & ps & ts & Hd & Hps & Hts & Hlen) Hrun.
  rewrite (run_delitem h self d ps ts k Hd Hps Hts) in Hrun.
  destruct k as [i|start stop step]; cbn [POSet__delitem__] in Hrun.
  - destruct (delitem_shape (poset_elements ps) ts (KInt i) Hlen)
      as [(e & He1 & He2)|(a & b & Ha & Hb & Hab)].
    + rewrite He1 in Hrun. cbn [rbind] in Hrun. inversion Hrun; subst.
      by exists d, ps, ts.
    + rewrite Ha, Hb in Hrun. cbn [rbind] in Hrun.
      inversion Hrun; subst. by apply synced_updated.
  - destruct (bool_decide _); inversion Hrun; subst; by exists d, ps, ts.
Qed.

Lemma init_establishes_synced h classification_rules premises targets
    use_cache leq_premise_func direct_subelements_dict l tl ts self h' :
  (is_Some classification_rules ∨ (is_Some premises ∧ targets = Some tl)) →
  supplied_premises h classification_rules premises = Some l →
  (classification_rules = None →
   lists h !! tl = Some ts ∧ length l = length ts) →
  DecisionPOSet__init__ classification_rules premises targets use_cache
    leq_premise_func direct_subelements_dict h = (Ok self, h') →
  synced h' self.
Proof.
  intros Hargs Hsup Hpair Hrun.
  destruct (init_run_unique h classification_rules premises targets
              use_cache leq_premise_func direct_subelements_dict l)
    as (h1 & pl & tl' & s1 & Hs1 & Hl & Hd & Hframe & Htl & Hrun'); [|done|].
  { destruct Hargs as [?|[? ->]]; eauto. }
  rewrite Hrun' in Hrun. destruct (bool_decide (NoDup l)); [|done].
  unfold new_dposet in Hrun. inversion Hrun as [[Hself Hh']]; clear Hrun.
  destruct classification_rules as [rules|].
  - simpl in Hsup. inversion Hsup as [Hrules].
    eexists _, s1, (target <$> rules).
    cbn [posets lists dposets].
    split_and!; [apply lookup_insert_eq|done|done|].
    rewrite Hl, <- Hrules. by rewrite !length_fmap.
  - destruct Hargs as [[? [=]]|[_ ->]]. inversion Htl; subst tl'.
    destruct (Hpair eq_refl) as [Hts Hlen].
    eexists _, s1, ts.
    cbn [posets lists dposets].
    split_and!; [apply lookup_insert_eq|done|by apply Hframe|].
    by rewrite Hl.
Qed.

(** C4, as the code has it, for targets held in a Python list.  The
    premises and the targets of a decision poset have the same length when
    it is constructed from rules, and when it is constructed from a premises
    and a targets sequence of the same length.  When they have the same
    length before [add] of a rule whose premise is new, they have the same
    length after it.  [add] of a rule whose premise is there already
    returns, leaves the premises as they are and appends the target: one
    target more than before next to the same premises.  When they have the
    same length before [__delitem__] they have the same length after it,
    whether the call returned or raised. *)
Theorem premises_targets_synced h h' self (out : result unit) rules premises
    targets pa tl l ts use_cache leq_premise_func direct_subelements_dict
    d ps ts0 element fill_up_cache k :
  (DecisionPOSet__init__ (Some rules) premises targets use_cache
     leq_premise_func direct_subelements_dict h = (Ok self, h') →
   synced h' self)
  ∧ (supplied_premises h None (Some pa) = Some l →
     lists h !! tl = Some ts → length l = length ts →
     DecisionPOSet__init__ None (Some pa) (Some tl) use_cache
       leq_premise_func direct_subelements_dict h = (Ok self, h') →
     synced h' self)
  ∧ (synced h self →
     dposets h !! self = Some d → posets h !! _premises d = Some ps →
     premise element ∉ poset_elements ps →
     DecisionPOSet_add self element fill_up_cache h = (out, h') →
     synced h' self)
  ∧ (dposets h !! self = Some d → posets h !! _premises d = Some ps →
     lists h !! _targets d = Some ts0 →
     premise element ∈ poset_elements ps →
     ∃ h1,
       DecisionPOSet_add self element fill_up_cache h = (Ok tt, h1)
       ∧ DecisionPOSet__len__ self h1
         = (Ok (length (poset_elements ps)), h1)
       ∧ DecisionPOSet_targets self h1 = (Ok (ts0 ++ [target element]), h1))
  ∧ (synced h self →
     DecisionPOSet__delitem__ self k h = (out, h') →
     synced h' self).
Proof.
  split_and!.
  - intros Hrun.
    eapply (init_establishes_synced h (Some rules) premises targets use_cache
              leq_premise_func direct_subelements_dict (premise <$> rules)
              0 []); [left; eauto|done|done|exact Hrun].
  - intros Hsup Hts Hlen Hrun.
    eapply (init_establishes_synced h None (Some pa) (Some tl) use_cache
              leq_premise_func direct_subelements_dict l tl ts);
      [right; eauto|done|done|exact Hrun].
  - apply add_preserves_synced.
  - apply add_present_appends.
  - apply delitem_preserves_synced.
Qed.

(** C9, as the code has it.  When the premises and the targets have the same
    length and the premise of the rule is not among the premises, [add]
    returns, the length goes up by one, [index] finds the rule at the old
    length, and the rules are the old ones followed by the new one, so that
    every old index holds the rule it held. *)
Theorem DecisionPOSet_add_spec h self d ps ts element fill_up_cache :
  dposets h !! self = Some d → posets h !! _premises d = Some ps →
  lists h !! _targets d = Some ts →
  premise element ∉ poset_elements ps →
  length (poset_elements ps) = length ts →
  ∃ h' rules,
    DecisionPOSet_add self element fill_up_cache h = (Ok tt, h')
    ∧ DecisionPOSet__len__ self h = (Ok (length rules), h)
    ∧ DecisionPOSet__len__ self h' = (Ok (S (length rules)), h')
    ∧ DecisionPOSet_index self element h' = (Ok (Some (length rules)), h')
    ∧ DecisionPOSet_classification_rules self h = (Ok rules, h)
    ∧ DecisionPOSet_classification_rules self h'
      = (Ok (rules ++ [element]), h')
    ∧ ∀ i r, rules !! i = Some r → (rules ++ [element]) !! i = Some r.
Proof.
  intros Hd Hps Hts Hnew Hlen.
  set (ps' := mkPOSet (poset_elements ps ++ [premise element])
                      (leq_func ps) (use_cache ps)).
  set (ts' := ts ++ [target element]).
  set (h' := updated h self d ps' ts').
  set (d' := mkDecisionPOSet (_premises d) (_targets d)
               (elements_to_index_map (poset_elements ps')) (_use_cache d)).
  assert (Hd' : dposets h' !! self = Some d') by apply lookup_insert_eq.
  assert (Hps' : posets h' !! _premises d' = Some ps')
    by apply lookup_insert_eq.
  assert (Hts' : lists h' !! _targets d' = Some ts')
    by apply lookup_insert_eq.
  assert (Hrules : length (zip_with mkRule (poset_elements ps) ts)
                   = length (poset_elements ps)).
  { rewrite length_zip_with. lia. }
  exists h', (zip_with mkRule (poset_elements ps) ts). split_and!.
  - rewrite (run_add h self d ps ts element fill_up_cache Hd Hps Hts).
    unfold POSet_add. by rewrite bool_decide_eq_false_2.
  - unfold DecisionPOSet__len__, bind.
    rewrite (run_premises h self d ps Hd Hps). unfold ret, POSet__len__.
    by rewrite Hrules.
  - unfold DecisionPOSet__len__, bind.
    rewrite (run_premises h' self d' ps' Hd' Hps'). unfold ret, POSet__len__.
    rewrite Hrules. cbn [ps' poset_elements]. rewrite length_app. simpl.
    repeat f_equal. lia.
  - rewrite (run_index h' self d' ps' ts' element Hd' Hps' Hts').
    rewrite Hrules.
    rewrite (POSet_index_first ps' (premise element)
               (length (poset_elements ps))).
    + simpl. unfold getitem, ts'. rewrite Hlen.
      rewrite lookup_app_r, Nat.sub_diag by lia. simpl.
      by rewrite bool_decide_eq_true_2.
    + cbn [ps' poset_elements].
      by rewrite lookup_app_r, Nat.sub_diag by lia.
    + intros j Hj. cbn [ps' poset_elements].
      rewrite lookup_app_l by lia. intros Hin. apply Hnew.
      eapply list_elem_of_lookup_2; eauto.
  - unfold DecisionPOSet_classification_rules, bind.
    rewrite (run_premises h self d ps Hd Hps).
    by rewrite (run_targets h self d ts Hd Hts).
  - unfold DecisionPOSet_classification_rules, bind.
    rewrite (run_premises h' self d' ps' Hd' Hps').
    rewrite (run_targets h' self d' ts' Hd' Hts'). unfold ret.
    cbn [ps' poset_elements]. unfold ts'.
    rewrite zip_with_app by done. by destruct element.
  - intros i r Hi. rewrite lookup_app_l; [done|].
    by eapply lookup_lt_Some.
Qed.

End MutationFacts.

(** *** Distinct premises

    What [index] relies on holds of every decision poset the constructor
    returns and is kept by [add] and [__delitem__]. *)

Section UniqueFacts.
Context {P T : Type} `{Countable P} `{EqDecision T}.
Implicit Types (h : store P T) (d : DecisionPOSet P) (ps : POSet P).
Implicit Types (ts : list T) (element : ClassificationRule P T).

Lemma drop_selected_sublist {X} sel i (l : list X) :
  drop_selected sel i l `sublist_of` l.
Proof.
  revert i. induction l as [|x l IH]; intros i; simpl; [constructor|].
  destruct (sel i); [apply sublist_cons | apply sublist_skip]; apply IH.
Qed.

Lemma delitem_sublist {X} (l l' : list X) k :
  delitem l k = Ok l' → l' `sublist_of` l.
Proof.
  unfold delitem. destruct k as [i|start stop step].
  - destruct (_ || _); [done|]. intros [= <-]. apply drop_selected_sublist.
  - destruct (bool_decide _); [done|].
    destruct (slice_indices _ _ _ _) as [[lo hi] st].
    intros [= <-]. apply drop_selected_sublist.
Qed.

Lemma init_ok_inv h classification_rules premises targets use_cache
    leq_premise_func direct_subelements_dict self h' :
  DecisionPOSet__init__ classification_rules premises targets use_cache
    leq_premise_func direct_subelements_dict h = (Ok self, h') →
  ∃ l, (is_Some classification_rules ∨ (is_Some premises ∧ is_Some targets))
       ∧ supplied_premises h classification_rules premises = Some l.
Proof.
  destruct classification_rules as [rules|]; [eauto|].
  destruct premises as [[elements|l0]|], targets as [tl|];
    try (unfold DecisionPOSet__init__, bind, raise; simpl; discriminate).
  - eauto.
  - intros Hrun. simpl. destruct (posets h !! l0) as [ps|] eqn:Hps; [eauto|].
    unfold DecisionPOSet__init__, bind, ret, read_poset in Hrun.
    simpl in Hrun. rewrite Hps in Hrun. discriminate.
Qed.

(** The constructor leaves a decision poset with pairwise distinct
    premises (given that the list of targets it was handed exists). *)
Lemma init_establishes_unique h classification_rules premises targets
    use_cache leq_premise_func direct_subelements_dict self h' :
  (∀ tl, classification_rules = None → targets = Some tl →
         is_Some (lists h !! tl)) →
  DecisionPOSet__init__ classification_rules premises targets use_cache
    leq_premise_func direct_subelements_dict h = (Ok self, h') →
  unique_premises h' self.
Proof.
  intros Htargets Hrun.
  destruct (init_ok_inv _ _ _ _ _ _ _ _ _ Hrun) as (l & Hargs & Hsup).
  destruct (init_run_unique h classification_rules premises targets
              use_cache leq_premise_func direct_subelements_dict l Hargs Hsup)
    as (h1 & pl & tl & s1 & Hs1 & Hl & Hd & Hframe & Htl & Hrun').
  rewrite Hrun' in Hrun.
  destruct (bool_decide (NoDup l)) eqn:Hnd; [|done].
  apply bool_decide_eq_true in Hnd.
  unfold new_dposet in Hrun. inversion Hrun as [[Hself Hh']]; clear Hrun.
  assert (Hts : ∃ ts, lists h1 !! tl = Some ts).
  { destruct classification_rules as [rules|]; [eauto|].
    destruct (Htargets tl eq_refl Htl) as [ts Hts]. eauto. }
  destruct Hts as [ts Hts].
  eexists _, s1, ts. cbn [posets lists dposets].
  split_and!; [apply lookup_insert_eq|done|done|by rewrite Hl].
Qed.

Lemma add_preserves_unique h self element fill_up_cache out h' :
  unique_premises h self →
  DecisionPOSet_add self element fill_up_cache h = (out, h') →
  unique_premises h' self.
Proof.
  intros (d & ps & ts & Hd & Hps & Hts & Hnd) Hrun.
  rewrite (run_add h self d ps ts element fill_up_cache Hd Hps Hts) in Hrun.
  unfold POSet_add in Hrun.
  destruct (bool_decide _) eqn:Hin; inversion Hrun; subst;
    eexists _, _, _; unfold updated; cbn [posets lists dposets];
    (split_and!; [apply lookup_insert_eq|apply lookup_insert_eq
                 |apply lookup_insert_eq|]).
  - done.
  - apply bool_decide_eq_false in Hin.
    cbn [poset_elements]. apply NoDup_app. split_and!; [done| |].
    + intros x Hx Hx'. apply list_elem_of_singleton in Hx'. by subst.
    + apply NoDup_singleton.
Qed.

Lemma delitem_preserves_unique h self k out h' :
  unique_premises h self →
  DecisionPOSet__delitem__ self k h = (out, h') →
  unique_premises h' self.
Proof.
  intros (d & ps & ts & Hd & Hps & Hts & Hnd) Hrun.
  rewrite (run_delitem h self d ps ts k Hd Hps Hts) in Hrun.
  destruct k as [i|start stop step]; cbn [POSet__delitem__] in Hrun.
  - destruct (delitem (poset_elements ps) (KInt i)) as [l'|e] eqn:Hdel;
      cbn [rbind] in Hrun.
    + assert (Hnd' : NoDup l').
      { eapply sublist_NoDup; [exact Hnd|]. by eapply delitem_sublist. }
      destruct (delitem ts (KInt i)) as [ts'|e]; inversion Hrun; subst.
      * eexists _, _, _. unfold updated. cbn [posets lists dposets].
        split_and!; [apply lookup_insert_eq|apply lookup_insert_eq
                    |apply lookup_insert_eq|done].
      * eexists d, _, ts. cbn [posets lists dposets].
        split_and!; [done|apply lookup_insert_eq|done|done].
    + inversion Hrun; subst. by exists d, ps, ts.
  - destruct (bool_decide _); inversion Hrun; subst; by exists d, ps, ts.
Qed.

End UniqueFacts.

Lemma premises_targets_synced_witness :
  synced example_store 0
  ∧ synced ((let! targets := new_list ["x"] in
             DecisionPOSet__init__ None (Some (PremisesIter [["a"]]))
               (Some targets) true compare_set_function None)
              empty_store).2 0
  ∧ synced (DecisionPOSet_add 0 (mkRule ["a"] "no") true example_store).2 0
  ∧ (∃ h1,
       DecisionPOSet_add 0 (mkRule ["c"] "maybe") true example_store
       = (Ok tt, h1)
       ∧ DecisionPOSet__len__ 0 h1 = (Ok 3, h1)
       ∧ DecisionPOSet_targets 0 h1 = (Ok ["yes"; "no"; "yes"; "maybe"], h1))
  ∧ synced (DecisionPOSet__delitem__ 0 (KInt 3) example_store).2 0.
Proof.
  pose (d := mkDecisionPOSet 0 0
               (elements_to_index_map (premise <$> example_rules)) true).
  pose (ps := mkPOSet (premise <$> example_rules) compare_set_function true).
  assert (Hex : synced example_store 0).
  { destruct (premises_targets_synced empty_store example_store 0 (Ok tt)
                example_rules None None (PremisesIter []) 0 [] [] true
                compare_set_function None d ps [] (mkRule [] "") true
                (KInt 0))
      as (Hrules & _).
    apply Hrules. reflexivity. }
  split_and!.
  - exact Hex.
  - destruct (premises_targets_synced (new_list ["x"] empty_store).2
                ((let! targets := new_list ["x"] in
                  DecisionPOSet__init__ None (Some (PremisesIter [["a"]]))
                    (Some targets) true compare_set_function None)
                   empty_store).2
                0 (Ok tt)
                [] None None (PremisesIter [["a"]]) 0 [["a"]] ["x"] true
                compare_set_function None d ps [] (mkRule [] "") true
                (KInt 0))
      as (_ & Hpair & _).
    apply Hpair; reflexivity.
  - destruct (premises_targets_synced example_store
                (DecisionPOSet_add 0 (mkRule ["a"] "no") true example_store).2
                0
                (DecisionPOSet_add 0 (mkRule ["a"] "no") true example_store).1
                [] None None (PremisesIter []) 0 [] [] true
                compare_set_function None d ps [] (mkRule ["a"] "no") true
                (KInt 0))
      as (_ & _ & Hadd & _).
    apply Hadd; [exact Hex|reflexivity|reflexivity| |apply surjective_pairing].
    apply (bool_decide_unpack _). vm_compute. exact I.
  - destruct (premises_targets_synced example_store example_store 0 (Ok tt)
                [] None None (PremisesIter []) 0 [] [] true
                compare_set_function None d ps (target <$> example_rules)
                (mkRule ["c"] "maybe") true (KInt 0))
      as (_ & _ & _ & Hdup & _).
    apply Hdup; [reflexivity|reflexivity|reflexivity|].
    apply (bool_decide_unpack _). vm_compute. exact I.
  - destruct (premises_targets_synced example_store
                (DecisionPOSet__delitem__ 0 (KInt 3) example_store).2
                0
                (DecisionPOSet__delitem__ 0 (KInt 3) example_store).1
                [] None None (PremisesIter []) 0 [] [] true
                compare_set_function None d ps [] (mkRule [] "") true
                (KInt 3))
      as (_ & _ & _ & _ & Hdel).
    apply Hdel; [exact Hex|]. apply surjective_pairing.
Defined.

(** C4 as the claim has it fails twice.  The constructor accepts one
    premise with two targets, and the decision poset it returns has one
    premise and two targets.  And on the decision poset of the three example
    rules, three premises and three targets, [add] of a rule whose premise
    [("c",)] is there already returns and leaves three premises next to
    four targets. *)
Lemma premises_targets_desynchronised :
  ((let! targets := new_list ["x"; "y"] in
    DecisionPOSet__init__ None (Some (PremisesIter [["a"]])) (Some targets)
      true compare_set_function None) (empty_store (T := string))).1 = Ok 0
  ∧ (DecisionPOSet__len__ 0 mismatched_store).1 = Ok 1
  ∧ rbind (DecisionPOSet_targets 0 mismatched_store).1 (λ ts, Ok (length ts))
    = Ok 2
  ∧ ¬ synced mismatched_store 0
  ∧ (DecisionPOSet__len__ 0 example_store).1 = Ok 3
  ∧ rbind (DecisionPOSet_targets 0 example_store).1 (λ ts, Ok (length ts))
    = Ok 3
  ∧ (DecisionPOSet_add 0 (mkRule ["c"] "maybe") true example_store).1 = Ok tt
  ∧ (DecisionPOSet__len__ 0
       (DecisionPOSet_add 0 (mkRule ["c"] "maybe") true example_store).2).1
    = Ok 3
  ∧ rbind (DecisionPOSet_targets 0
             (DecisionPOSet_add 0 (mkRule ["c"] "maybe") true
                example_store).2).1
          (λ ts, Ok (length ts))
    = Ok 4.
Proof.
  split_and!; try reflexivity.
  intros (d & ps & ts & Hd & Hps & Hts & Hlen).
  assert (Hd0 : dposets mismatched_store !! 0
                = Some (mkDecisionPOSet 0 0
                          (elements_to_index_map [["a"]]) true))
    by reflexivity.
  rewrite Hd0 in Hd. inversion Hd; subst d; clear Hd. cbn in Hps, Hts.
  assert (Hps0 : posets mismatched_store !! 0
                 = Some (mkPOSet [["a"]] compare_set_function true))
    by reflexivity.
  assert (Hts0 : lists mismatched_store !! 0 = Some ["x"; "y"])
    by reflexivity.
  rewrite Hps0 in Hps. rewrite Hts0 in Hts.
  inversion Hps; subst ps. inversion Hts; subst ts.
  cbn [length poset_elements] in Hlen. lia.
Qed.

Lemma DecisionPOSet_add_spec_witness :
  ∃ h' rules,
    DecisionPOSet_add 0 (mkRule ["b"] "no") true example_store = (Ok tt, h')
    ∧ DecisionPOSet__len__ 0 example_store = (Ok (length rules), example_store)
    ∧ DecisionPOSet__len__ 0 h' = (Ok (S (length rules)), h')
    ∧ DecisionPOSet_index 0 (mkRule ["b"] "no") h'
      = (Ok (Some (length rules)), h')
    ∧ DecisionPOSet_classification_rules 0 example_store
      = (Ok rules, example_store)
    ∧ DecisionPOSet_classification_rules 0 h'
      = (Ok (rules ++ [mkRule ["b"] "no"]), h')
    ∧ ∀ i r, rules !! i = Some r
             → (rules ++ [mkRule ["b"] "no"]) !! i = Some r.
Proof.
  eapply (DecisionPOSet_add_spec example_store 0 _ _ _
            (mkRule ["b"] "no") true); try reflexivity.
  apply (bool_decide_unpack _). vm_compute. exact I.
Defined.

(** C9 as the claim has it fails on a decision poset the constructor
    accepts: with the one premise [("a",)] and the two targets ["x"], ["y"],
    [add] of the rule [(("b",), "z")] returns, and [index] of that rule then
    finds the premise at position 1 next to the old target ["y"], and
    returns [None]. *)
Lemma DecisionPOSet_add_index_counterexample :
  poset_elements <$> posets mismatched_store !! 0 = Some [["a"]]
  ∧ lists mismatched_store !! 0 = Some ["x"; "y"]
  ∧ ¬ (["b"] ∈ [["a"]])
  ∧ (DecisionPOSet_add 0 (mkRule ["b"] "z") true mismatched_store).1 = Ok tt
  ∧ (DecisionPOSet_index 0 (mkRule ["b"] "z")
       (DecisionPOSet_add 0 (mkRule ["b"] "z") true mismatched_store).2).1
    = Ok None.
Proof.
  split_and!; try reflexivity.
  apply (bool_decide_unpack _). vm_compute. exact I.
Qed.

(** ** Formal contexts *)

Lemma list_index_total `{EqDecision X} (l : list X) x :
  x ∈ l → ∃ i, list_index l x = Ok i.
Proof.
  intros Hx. unfold list_index.
  destruct (list_find _ _) as [[i y]|] eqn:Hfind; [eauto|].
  apply list_find_None in Hfind. rewrite Forall_forall in Hfind.
  by destruct (Hfind x Hx).
Qed.

Lemma rmap_list_index_total `{EqDecision X} (names l : list X) :
  Forall (λ x, x ∈ names) l → ∃ ixs, rmap (list_index names) l = Ok ixs.
Proof.
  intros Hl. apply rmap_total. eapply Forall_impl; [exact Hl|].
  intros x Hx. by apply list_index_total.
Qed.

Lemma rmap_Forall {X Y} (f : X → result Y) (Q : Y → Prop) l l' :
  rmap f l = Ok l' → (∀ x y, x ∈ l → f x = Ok y → Q y) → Forall Q l'.
Proof.
  intros Hl HQ. apply Forall_lookup. intros i y Hi.
  destruct (rmap_lookup f l l' i y Hl Hi) as (x & Hx & Hfx).
  eapply HQ; [|exact Hfx]. eapply list_elem_of_lookup_2; eauto.
Qed.

Lemma extension_total context attributes :
  Forall (λ m, m ∈ attribute_names context) attributes →
  ∃ e, FormalContext_extension context attributes = Ok e.
Proof.
  intros Hm. unfold FormalContext_extension.
  rewrite bool_decide_eq_true_2 by done. eauto.
Qed.

Lemma extension_objects context attributes e :
  FormalContext_extension context attributes = Ok e →
  Forall (λ g, g ∈ object_names context) e.
Proof.
  unfold FormalContext_extension. destruct (bool_decide _); [|done].
  intros [= <-]. apply Forall_forall. intros g Hg.
  by apply list_elem_of_filter in Hg as [_ Hg].
Qed.

Lemma intention_total context objects :
  Forall (λ g, g ∈ object_names context) objects →
  ∃ i, FormalContext_intention context objects = Ok i.
Proof.
  intros Hg. unfold FormalContext_intention.
  rewrite bool_decide_eq_true_2 by done. eauto.
Qed.

Lemma intention_attributes context objects i :
  FormalContext_intention context objects = Ok i →
  Forall (λ m, m ∈ attribute_names context) i.
Proof.
  unfold FormalContext_intention. destruct (bool_decide _); [|done].
  intros [= <-]. apply Forall_forall. intros m Hm.
  by apply list_elem_of_filter in Hm as [_ Hm].
Qed.

Lemma filter_all {X} (Q : X → Prop) `{∀ x, Decision (Q x)} (l : list X) :
  Forall Q l → filter Q l = l.
Proof.
  induction 1 as [|x l Hx _ IH]; [done|].
  rewrite filter_cons_True by done. by rewrite IH.
Qed.

(** The closure of the full attribute set is the full attribute set. *)
Lemma intention_extension_full context e :
  FormalContext_extension context (attribute_names context) = Ok e →
  FormalContext_intention context e = Ok (attribute_names context).
Proof.
  intros He. pose proof (extension_objects _ _ _ He) as Hobj.
  unfold FormalContext_intention. rewrite bool_decide_eq_true_2 by done.
  f_equal. apply filter_all. apply Forall_forall. intros m Hm.
  apply Forall_forall. intros g Hg.
  unfold FormalContext_extension in He.
  destruct (bool_decide _); [|done]. inversion He; subst e.
  apply list_elem_of_filter in Hg as [Hall _].
  rewrite Forall_forall in Hall. by apply Hall.
Qed.

(** ** The ordered set's covering dictionary *)

Lemma direct_sub_elements_dict_lookup {P} `{EqDecision P} (s : POSet P) i :
  i < POSet__len__ s →
  POSet_direct_sub_elements_dict s !! i = Some (POSet_direct_sub_elements s i).
Proof.
  intros Hi. unfold POSet_direct_sub_elements_dict.
  apply elem_of_list_to_map_1.
  - assert (Hfst : ∀ l : list nat,
              ((λ i, (i, POSet_direct_sub_elements s i)) <$> l).*1 = l).
    { induction l as [|j l IH]; [done|]. rewrite !fmap_cons. by rewrite IH. }
    rewrite Hfst. apply NoDup_seq.
  - apply list_elem_of_fmap. exists i. split; [done|].
    unfold POSet_indices. apply elem_of_seq. lia.
Qed.

Lemma bottom_elements_lt {P} `{EqDecision P} (s : POSet P) i :
  i ∈ POSet_bottom_elements s → i < POSet__len__ s.
Proof.
  unfold POSet_bottom_elements, POSet_indices. intros Hi.
  apply list_elem_of_filter in Hi as [_ Hi]. apply elem_of_seq in Hi. lia.
Qed.

Lemma bottom_elements_minimal {P} `{EqDecision P} (s : POSet P) i :
  i ∈ POSet_bottom_elements s
  ↔ i < POSet__len__ s ∧ ∀ j, POSet_below s j i = false.
Proof.
  unfold POSet_bottom_elements, POSet_sub_elements, POSet_indices.
  rewrite list_elem_of_filter, elem_of_seq. split.
  - intros [Hempty Hi]. split; [lia|]. intros j.
    destruct (POSet_below s j i) eqn:Hji; [|done].
    assert (Hj : j < POSet__len__ s).
    { unfold POSet_below in Hji.
      destruct (poset_elements s !! j) eqn:Hj; [|done].
      by eapply lookup_lt_Some. }
    assert (Hin : j ∈ (∅ : gset nat)).
    { rewrite <- Hempty. apply elem_of_list_to_set, list_elem_of_filter.
      split; [done|]. apply elem_of_seq. lia. }
    by apply not_elem_of_empty in Hin.
  - intros [Hi Hmin]. split; [|lia].
    apply set_eq. intros j. rewrite elem_of_list_to_set, list_elem_of_filter.
    split; [|by intros ?%not_elem_of_empty].
    intros [Hji _]. rewrite Hmin in Hji. discriminate.
Qed.

Lemma foldl_insert_lookup (v : gset nat) (keys : list nat)
    (dict : gmap nat (gset nat)) i :
  foldl (λ d el_i, <[el_i := v]> d) dict keys !! i
  = if bool_decide (i ∈ keys) then Some v else dict !! i.
Proof.
  revert dict. induction keys as [|k keys IH]; intros dict; cbn [foldl].
  - by rewrite bool_decide_eq_false_2 by apply not_elem_of_nil.
  - rewrite IH. destruct (decide (i ∈ keys)) as [Hin|Hin].
    + rewrite !bool_decide_eq_true_2; [done| |done].
      by apply list_elem_of_further.
    + rewrite (bool_decide_eq_false_2 (i ∈ keys)) by done.
      destruct (decide (i = k)) as [->|Hne].
      * rewrite lookup_insert_eq.
        by rewrite bool_decide_eq_true_2 by apply list_elem_of_here.
      * rewrite lookup_insert_ne by done.
        rewrite bool_decide_eq_false_2; [done|].
        intros Hin'. apply elem_of_cons in Hin' as [?|?]; done.
Qed.

(** ** The converter *)

Lemma getitem_ok {X} (l : list X) i x : getitem l i = Ok x → l !! i = Some x.
Proof. unfold getitem. destruct (l !! i); [congruence|done]. Qed.

Lemma getitem_total {X} (l : list X) i :
  i < length l → ∃ x, getitem l i = Ok x.
Proof.
  intros Hi. unfold getitem.
  destruct (lookup_lt_is_Some_2 l i Hi) as [x ->]. eauto.
Qed.

Lemma lattice_of_ok context orig copy L :
  lattice_of context orig copy = Ok L →
  length (concepts L) = POSet__len__ copy
  ∧ subconcepts_dict L
    = foldl (λ d el_i, <[el_i := {[POSet__len__ copy - 1]}]> d)
            (POSet_direct_sub_elements_dict orig)
            (POSet_bottom_elements orig)
  ∧ ∀ i c, concepts L !! i = Some c →
      ∃ p, poset_elements copy !! i = Some p
           ∧ FormalContext_extension context p = Ok (extent c)
           ∧ FormalContext_intention context (extent c) = Ok (intent c)
           ∧ context_hash c = FormalContext_hash_fixed context.
Proof.
  unfold lattice_of. intros HL.
  apply rbind_ok in HL as (extents & Hextents & HL).
  apply rbind_ok in HL as (intents & Hintents & HL).
  apply rbind_ok in HL as (extents_i & Hextents_i & HL).
  apply rbind_ok in HL as (intents_i & Hintents_i & HL).
  apply rbind_ok in HL as (cs & Hcs & HL).
  inversion HL; subst L; clear HL. cbn [concepts subconcepts_dict].
  assert (Hlen : length cs = POSet__len__ copy).
  { apply rmap_length in Hcs. by rewrite length_seq in Hcs. }
  split_and!; [done|by rewrite Hlen|].
  intros i c Hc.
  destruct (rmap_lookup _ _ _ _ _ Hcs Hc) as (c_i & Hc_i & Hmk).
  apply lookup_seq in Hc_i as [-> _]. simpl in Hmk.
  apply rbind_ok in Hmk as (ei & _ & Hmk).
  apply rbind_ok in Hmk as (e & He & Hmk).
  apply rbind_ok in Hmk as (ii & _ & Hmk).
  apply rbind_ok in Hmk as (it & Hit & Hmk).
  inversion Hmk; subst c; clear Hmk. cbn [extent intent context_hash].
  apply getitem_ok in He, Hit.
  destruct (rmap_lookup _ _ _ _ _ Hintents Hit) as (e' & He' & Hint).
  rewrite He in He'. inversion He'; subst e'.
  destruct (rmap_lookup _ _ _ _ _ Hextents He) as (p & Hp & Hext).
  eauto.
Qed.

Lemma lattice_of_total context orig copy :
  Forall (λ p, Forall (λ m, m ∈ attribute_names context) p)
         (poset_elements copy) →
  ∃ L, lattice_of context orig copy = Ok L.
Proof.
  intros Hknown. unfold lattice_of.
  destruct (rmap_total (FormalContext_extension context)
              (poset_elements copy)) as [extents Hextents].
  { eapply Forall_impl; [exact Hknown|]. intros p Hp.
    by apply extension_total. }
  assert (Hobjs : Forall (λ e, Forall (λ g, g ∈ object_names context) e)
                         extents).
  { eapply rmap_Forall; [exact Hextents|]. intros p e _.
    apply extension_objects. }
  destruct (rmap_total (FormalContext_intention context) extents)
    as [intents Hintents].
  { eapply Forall_impl; [exact Hobjs|]. intros e He.
    by apply intention_total. }
  assert (Hattrs : Forall (λ i, Forall (λ m, m ∈ attribute_names context) i)
                          intents).
  { eapply rmap_Forall; [exact Hintents|]. intros e i _.
    apply intention_attributes. }
  destruct (rmap_total (rmap (list_index (object_names context))) extents)
    as [extents_i Hextents_i].
  { eapply Forall_impl; [exact Hobjs|]. intros e He.
    by apply rmap_list_index_total. }
  destruct (rmap_total (rmap (list_index (attribute_names context))) intents)
    as [intents_i Hintents_i].
  { eapply Forall_impl; [exact Hattrs|]. intros i Hi.
    by apply rmap_list_index_total. }
  rewrite Hextents. cbn [rbind]. rewrite Hintents. cbn [rbind].
  rewrite Hextents_i. cbn [rbind]. rewrite Hintents_i. cbn [rbind].
  pose proof (rmap_length _ _ _ Hextents) as Hn1.
  pose proof (rmap_length _ _ _ Hintents) as Hn2.
  pose proof (rmap_length _ _ _ Hextents_i) as Hn3.
  pose proof (rmap_length _ _ _ Hintents_i) as Hn4.
  match goal with
  | |- ∃ L, rbind (rmap ?F ?l) _ = _ =>
      destruct (rmap_total F l) as [cs Hcs]
  end.
  { apply Forall_forall. intros c_i Hc_i. apply elem_of_seq in Hc_i.
    unfold POSet__len__ in Hc_i.
    destruct (getitem_total extents_i c_i) as [ei ->]; [lia|].
    destruct (getitem_total extents c_i) as [e ->]; [lia|].
    destruct (getitem_total intents_i c_i) as [ii ->]; [lia|].
    destruct (getitem_total intents c_i) as [it ->]; [lia|].
    cbn [rbind]. eauto. }
  rewrite Hcs. cbn [rbind]. eauto.
Qed.

Section ConverterFacts.
Context {T : Type} `{EqDecision T}.
Implicit Types (h : store (list string) T) (d : DecisionPOSet (list string)).
Implicit Types (ps : POSet (list string)) (context : FormalContext).

Lemma run_conversion context dt h d ps :
  dposets h !! dt = Some d → posets h !! _premises d = Some ps →
  concept_lattice_from_decision_tree context dt h
  = let l := fresh (dom (posets h)) in
    match POSet_add ps (attribute_names context) with
    | Ok copy =>
        (lattice_of context ps copy,
         mkStore (<[l := copy]> (<[l := ps]> (posets h))) (lists h) (dposets h))
    | Raise e =>
        (Raise e, mkStore (<[l := ps]> (posets h)) (lists h) (dposets h))
    end.
Proof.
  intros Hd Hps.
  assert (Hfresh : fresh (dom (posets h)) ≠ _premises d).
  { intros Heq. apply (is_fresh (dom (posets h))). rewrite Heq.
    apply elem_of_dom. eauto. }
  unfold concept_lattice_from_decision_tree.
  unfold bind at 1. rewrite (run_premises h dt d ps Hd Hps).
  unfold bind at 1, new_poset at 1. cbn [posets lists dposets].
  unfold bind at 1, poset_add at 1. unfold bind at 1, read_poset at 1.
  cbn [posets lists dposets]. rewrite lookup_insert_eq.
  unfold bind at 1, lift at 1.
  destruct (POSet_add ps (attribute_names context)) as [copy|e]; [|done].
  unfold write_poset at 1. cbn [posets lists dposets].
  unfold bind at 1, read_poset at 1. cbn [posets lists dposets].
  rewrite lookup_insert_eq. unfold lattice_of.
  unfold bind at 1, lift at 1.
  destruct (rmap (FormalContext_extension context) _) as [extents|e]; [|done].
  cbn [rbind]. unfold bind at 1, lift at 1.
  destruct (rmap (FormalContext_intention context) _) as [intents|e]; [|done].
  cbn [rbind]. unfold bind at 1, lift at 1.
  destruct (rmap (rmap (list_index (object_names context))) _)
    as [extents_i|e]; [|done].
  cbn [rbind]. unfold bind at 1, lift at 1.
  destruct (rmap (rmap (list_index (attribute_names context))) _)
    as [intents_i|e]; [|done].
  cbn [rbind]. unfold bind at 1, lift at 1.
  destruct (rmap _ (seq 0 _)) as [cs|e]; [|done].
  cbn [rbind].
  assert (Hrun : ∀ h2, dposets h2 = dposets h →
                       posets h2 !! _premises d = Some ps →
                       DecisionPOSet_premises dt h2 = (Ok ps, h2)).
  { intros h2 Hd2 Hps2. apply (run_premises h2 dt d ps); [|done].
    by rewrite Hd2. }
  unfold bind at 1. rewrite Hrun; [|done|].
  2:{ cbn [posets]. by rewrite !lookup_insert_ne. }
  unfold bind at 1. rewrite Hrun; [|done|].
  2:{ cbn [posets]. by rewrite !lookup_insert_ne. }
  reflexivity.
Qed.

(** When the conversion returns: the full attribute set is new to the
    premises and every premise is made of attributes of the context. *)
Lemma conversion_returns context dt h d ps :
  dposets h !! dt = Some d → posets h !! _premises d = Some ps →
  attribute_names context ∉ poset_elements ps →
  Forall (λ p, Forall (λ m, m ∈ attribute_names context) p)
         (poset_elements ps) →
  ∃ L h', concept_lattice_from_decision_tree context dt h = (Ok L, h')
          ∧ lattice_of context ps
              (mkPOSet (poset_elements ps ++ [attribute_names context])
                       (leq_func ps) (use_cache ps)) = Ok L.
Proof.
  intros Hd Hps Hnew Hknown.
  rewrite (run_conversion context dt h d ps Hd Hps). cbn zeta.
  unfold POSet_add. rewrite bool_decide_eq_false_2 by done.
  destruct (lattice_of_total context ps
              (mkPOSet (poset_elements ps ++ [attribute_names context])
                       (leq_func ps) (use_cache ps))) as [L HL].
  { cbn [poset_elements]. apply Forall_app. split; [done|].
    apply Forall_singleton. by apply Forall_forall. }
  rewrite HL. eauto.
Qed.

(** The attribute list being among the premises already, [add] leaves the
    copy as it is and the conversion works on the premises alone. *)
Lemma conversion_returns_present context dt h d ps :
  dposets h !! dt = Some d → posets h !! _premises d = Some ps →
  attribute_names context ∈ poset_elements ps →
  Forall (λ p, Forall (λ m, m ∈ attribute_names context) p)
         (poset_elements ps) →
  ∃ L h', concept_lattice_from_decision_tree context dt h = (Ok L, h')
          ∧ lattice_of context ps ps = Ok L.
Proof.
  intros Hd Hps Hin Hknown.
  rewrite (run_conversion context dt h d ps Hd Hps). cbn zeta.
  rewrite POSet_add_present by done.
  destruct (lattice_of_total context ps ps Hknown) as [L HL].
  rewrite HL. eauto.
Qed.

Lemma conversion_ok context dt h d ps L h' :
  dposets h !! dt = Some d → posets h !! _premises d = Some ps →
  concept_lattice_from_decision_tree context dt h = (Ok L, h') →
  ∃ copy, POSet_add ps (attribute_names context) = Ok copy
          ∧ lattice_of context ps copy = Ok L.
Proof.
  intros Hd Hps. rewrite (run_conversion context dt h d ps Hd Hps). cbn zeta.
  destruct (POSet_add ps (attribute_names context)) as [copy|e]; [|done].
  intros [= HL _]. eauto.
Qed.

Lemma conversion_ok_new context dt h d ps L h' :
  dposets h !! dt = Some d → posets h !! _premises d = Some ps →
  attribute_names context ∉ poset_elements ps →
  concept_lattice_from_decision_tree context dt h = (Ok L, h') →
  lattice_of context ps
    (mkPOSet (poset_elements ps ++ [attribute_names context])
             (leq_func ps) (use_cache ps)) = Ok L.
Proof.
  intros Hd Hps Hnew Hrun.
  destruct (conversion_ok context dt h d ps L h' Hd Hps Hrun)
    as (copy & Hadd & HL).
  rewrite POSet_add_new in Hadd by done. by injection Hadd as <-.
Qed.

(** C2, as the code has it.  A lattice that the conversion returns for a
    tree in the store has [len(dt.premises) + 1] concepts when the attribute
    list of the context is not among the premises, and [len(dt.premises)]
    concepts when it is: [add] then leaves the copy of the premises as it
    is, and no concept is made beside those of the premises. *)
Theorem conversion_concept_count context dt h d ps L h' :
  dposets h !! dt = Some d → posets h !! _premises d = Some ps →
  concept_lattice_from_decision_tree context dt h = (Ok L, h') →
  (attribute_names context ∉ poset_elements ps →
   length (concepts L) = POSet__len__ ps + 1)
  ∧ (attribute_names context ∈ poset_elements ps →
     length (concepts L) = POSet__len__ ps).
Proof.
  intros Hd Hps Hrun.
  destruct (conversion_ok context dt h d ps L h' Hd Hps Hrun)
    as (copy & Hadd & HL).
  apply lattice_of_ok in HL as (Hlen & _). rewrite Hlen.
  split; intros Hin.
  - rewrite POSet_add_new in Hadd by done. injection Hadd as <-.
    unfold POSet__len__. cbn [poset_elements]. by rewrite length_app.
  - rewrite POSet_add_present in Hadd by done. by injection Hadd as <-.
Qed.

(** C3, as the code has it.  When the attribute list of the context is not
    among the premises of the tree: in every lattice the conversion returns,
    a bottom element of the tree's premise order has the index of the added
    concept, the one of the full attribute set, as its only direct
    sub-concept, and every other index has the direct sub-elements it has in
    the tree's order; and the conversion does return when the premises are
    made of attributes of the context. *)
Theorem conversion_rewires_bottoms context dt h d ps :
  dposets h !! dt = Some d → posets h !! _premises d = Some ps →
  attribute_names context ∉ poset_elements ps →
  (∀ L h', concept_lattice_from_decision_tree context dt h = (Ok L, h') →
     (∃ c, concepts L !! POSet__len__ ps = Some c
           ∧ intent c = attribute_names context)
     ∧ (∀ i, i ∈ POSet_bottom_elements ps →
             subconcepts_dict L !! i = Some {[POSet__len__ ps]})
     ∧ (∀ i, i ∉ POSet_bottom_elements ps →
             subconcepts_dict L !! i = POSet_direct_sub_elements_dict ps !! i)
     ∧ (∀ i, i < POSet__len__ ps → i ∉ POSet_bottom_elements ps →
             subconcepts_dict L !! i
             = Some (POSet_direct_sub_elements ps i)))
  ∧ (Forall (λ p, Forall (λ m, m ∈ attribute_names context) p)
            (poset_elements ps) →
     ∃ L h', concept_lattice_from_decision_tree context dt h = (Ok L, h')).
Proof.
  intros Hd Hps Hnew. split.
  - intros L h' Hrun.
    pose proof (conversion_ok_new context dt h d ps L h' Hd Hps Hnew Hrun)
      as HL.
    pose proof HL as HL'.
    apply lattice_of_ok in HL as (Hlen & Hdict & Hconcepts).
    assert (Hbc : POSet__len__
                    (mkPOSet (poset_elements ps ++ [attribute_names context])
                             (leq_func ps) (use_cache ps)) - 1
                  = POSet__len__ ps).
    { unfold POSet__len__. cbn [poset_elements]. rewrite length_app.
      simpl. lia. }
    rewrite Hbc in Hdict.
    assert (Hother : ∀ i, i ∉ POSet_bottom_elements ps →
               subconcepts_dict L !! i
               = POSet_direct_sub_elements_dict ps !! i).
    { intros i Hi. rewrite Hdict, foldl_insert_lookup.
      by rewrite bool_decide_eq_false_2. }
    split_and!.
    + destruct (lookup_lt_is_Some_2 (concepts L) (POSet__len__ ps))
        as [c Hc].
      { rewrite Hlen, <- Hbc. unfold POSet__len__. cbn [poset_elements].
        rewrite length_app. simpl. lia. }
      exists c. split; [done|].
      destruct (Hconcepts _ _ Hc) as (p & Hp & Hext & Hint & _).
      cbn [poset_elements] in Hp. unfold POSet__len__ in Hp.
      rewrite lookup_app_r, Nat.sub_diag in Hp by lia.
      inversion Hp; subst p.
      apply intention_extension_full in Hext. congruence.
    + intros i Hi. rewrite Hdict, foldl_insert_lookup.
      by rewrite bool_decide_eq_true_2.
    + exact Hother.
    + intros i Hlt Hi. rewrite Hother by done.
      by apply direct_sub_elements_dict_lookup.
  - intros Hknown.
    destruct (conversion_returns context dt h d ps Hd Hps Hnew Hknown)
      as (L & h' & Hrun & _). eauto.
Qed.

(** C5.  In every lattice the conversion returns, the intent of each concept
    is what [context.intention] gives for its extent, and each concept
    carries [context.hash_fixed()]; the conversion does return when the
    attribute list is new to the premises and the premises are made of
    attributes of the context. *)
Theorem conversion_concepts_closed context dt h d ps :
  dposets h !! dt = Some d → posets h !! _premises d = Some ps →
  (∀ L h' c,
     concept_lattice_from_decision_tree context dt h = (Ok L, h') →
     c ∈ concepts L →
     FormalContext_intention context (extent c) = Ok (intent c)
     ∧ context_hash c = FormalContext_hash_fixed context)
  ∧ (attribute_names context ∉ poset_elements ps →
     Forall (λ p, Forall (λ m, m ∈ attribute_names context) p)
            (poset_elements ps) →
     ∃ L h', concept_lattice_from_decision_tree context dt h = (Ok L, h')).
Proof.
  intros Hd Hps. split.
  - intros L h' c Hrun Hc.
    destruct (conversion_ok context dt h d ps L h' Hd Hps Hrun)
      as (copy & _ & HL).
    apply lattice_of_ok in HL as (_ & _ & Hconcepts).
    apply list_elem_of_lookup in Hc as [i Hi].
    destruct (Hconcepts i c Hi) as (p & _ & _ & Hint & Hhash). done.
  - intros Hnew Hknown.
    destruct (conversion_returns context dt h d ps Hd Hps Hnew Hknown)
      as (L & h' & Hrun & _). eauto.
Qed.

(** C6.  Whether the conversion returns or raises, the store holds the same
    decision posets and the same target lists afterwards, and every ordered
    set it held it still holds unchanged; so the tree, its ordered set of
    premises (elements, order, predicate) and its targets are what they
    were. *)
Theorem conversion_leaves_tree_unmodified context dt h d ps
    (ts : list T) (out : result ConceptLattice) h' :
  dposets h !! dt = Some d → posets h !! _premises d = Some ps →
  lists h !! _targets d = Some ts →
  concept_lattice_from_decision_tree context dt h = (out, h') →
  dposets h' = dposets h
  ∧ lists h' = lists h
  ∧ (∀ k s, posets h !! k = Some s → posets h' !! k = Some s)
  ∧ dposets h' !! dt = Some d
  ∧ posets h' !! _premises d = Some ps
  ∧ lists h' !! _targets d = Some ts
  ∧ DecisionPOSet_classification_rules dt h'
    = (Ok (zip_with mkRule (poset_elements ps) ts), h').
Proof.
  intros Hd Hps Hts Hrun.
  assert (Hfresh : ∀ k s, posets h !! k = Some s →
                          fresh (dom (posets h)) ≠ k).
  { intros k s Hk Heq. apply (is_fresh (dom (posets h))). rewrite Heq.
    apply elem_of_dom. eauto. }
  assert (Hframe : dposets h' = dposets h ∧ lists h' = lists h
                   ∧ ∀ k s, posets h !! k = Some s → posets h' !! k = Some s).
  { rewrite (run_conversion context dt h d ps Hd Hps) in Hrun.
    cbn zeta in Hrun.
    destruct (POSet_add ps (attribute_names context)) as [copy|e];
      inversion Hrun; subst; cbn [posets lists dposets];
      (split_and!; [done|done|]); intros k s Hk.
    - rewrite !lookup_insert_ne by (by eapply Hfresh). done.
    - rewrite lookup_insert_ne by (by eapply Hfresh). done. }
  destruct Hframe as (Hdp & Hli & Hpo).
  assert (Hd' : dposets h' !! dt = Some d) by (by rewrite Hdp).
  assert (Hps' : posets h' !! _premises d = Some ps) by (by apply Hpo).
  assert (Hts' : lists h' !! _targets d = Some ts) by (by rewrite Hli).
  split_and!; try done.
  unfold DecisionPOSet_classification_rules, bind.
  rewrite (run_premises h' dt d ps Hd' Hps').
  by rewrite (run_targets h' dt d ts Hd' Hts').
Qed.

End ConverterFacts.

(** ** The worked example *)

Lemma example_premises_new :
  attribute_names example_context ∉ premise <$> example_rules.
Proof. apply (bool_decide_unpack _). vm_compute. exact I. Qed.

Lemma example_premises_known :
  Forall (λ p, Forall (λ m, m ∈ attribute_names example_context) p)
         (premise <$> example_rules).
Proof. apply (bool_decide_unpack _). vm_compute. exact I. Qed.

Lemma single_premises_full :
  attribute_names example_context ∈ premise <$> single_rules.
Proof. apply (bool_decide_unpack _). vm_compute. exact I. Qed.

Lemma single_premises_known :
  Forall (λ p, Forall (λ m, m ∈ attribute_names example_context) p)
         (premise <$> single_rules).
Proof. apply (bool_decide_unpack _). vm_compute. exact I. Qed.

Lemma conversion_concept_count_witness :
  (∃ L h', concept_lattice_from_decision_tree example_context 0 example_store
           = (Ok L, h')
           ∧ length (concepts L) = 3 + 1)
  ∧ (∃ L h', concept_lattice_from_decision_tree example_context 0 single_store
             = (Ok L, h')
             ∧ length (concepts L) = 1).
Proof.
  split.
  - destruct (conversion_returns example_context 0 example_store
                (mkDecisionPOSet 0 0
                   (elements_to_index_map (premise <$> example_rules)) true)
                (mkPOSet (premise <$> example_rules) compare_set_function
                   true)
                eq_refl eq_refl example_premises_new example_premises_known)
      as (L & h' & Hrun & _).
    exists L, h'. split; [exact Hrun|].
    destruct (conversion_concept_count example_context 0 example_store
                (mkDecisionPOSet 0 0
                   (elements_to_index_map (premise <$> example_rules)) true)
                (mkPOSet (premise <$> example_rules) compare_set_function
                   true)
                L h' eq_refl eq_refl Hrun) as [Hnew _].
    exact (Hnew example_premises_new).
  - destruct (conversion_returns_present example_context 0 single_store
                (mkDecisionPOSet 0 0
                   (elements_to_index_map (premise <$> single_rules)) true)
                (mkPOSet (premise <$> single_rules) compare_set_function
                   true)
                eq_refl eq_refl single_premises_full single_premises_known)
      as (L & h' & Hrun & _).
    exists L, h'. split; [exact Hrun|].
    destruct (conversion_concept_count example_context 0 single_store
                (mkDecisionPOSet 0 0
                   (elements_to_index_map (premise <$> single_rules)) true)
                (mkPOSet (premise <$> single_rules) compare_set_function
                   true)
                L h' eq_refl eq_refl Hrun) as [_ Hfull].
    exact (Hfull single_premises_full).
Defined.

(** C2 as the claim has it fails where it says it holds: the one premise of
    this tree is the attribute list of the context, [add] leaves the copy of
    the premises as it is, and the conversion makes one concept, as many as
    there are premises, not two. *)
Lemma conversion_full_premise_counterexample :
  (DecisionPOSet_classification_rules 0 single_store).1 = Ok single_rules
  ∧ (DecisionPOSet__len__ 0 single_store).1 = Ok 1
  ∧ attribute_names example_context ∈ premise <$> single_rules
  ∧ rbind (concept_lattice_from_decision_tree example_context 0
             single_store).1
          (λ L, Ok (length (concepts L)))
    = Ok 1.
Proof.
  split_and!.
  - reflexivity.
  - reflexivity.
  - exact single_premises_full.
  - vm_compute. reflexivity.
Qed.

Lemma conversion_rewires_bottoms_witness :
  (∀ L h',
     concept_lattice_from_decision_tree example_context 0 example_store
     = (Ok L, h') →
     (∃ c, concepts L !! 3 = Some c ∧ intent c = ["a"; "b"; "c"])
     ∧ subconcepts_dict L !! 1 = Some {[3]}
     ∧ subconcepts_dict L !! 2 = Some {[3]}
     ∧ subconcepts_dict L !! 0 = Some {[1; 2]})
  ∧ ∃ L h', concept_lattice_from_decision_tree example_context 0 example_store
            = (Ok L, h').
Proof.
  edestruct (conversion_rewires_bottoms example_context 0 example_store)
    as (Hwire & Hret); [reflexivity|reflexivity|exact example_premises_new|].
  split.
  - intros L h' Hrun.
    destruct (Hwire L h' Hrun) as (Hc & Hbot & _ & Hother).
    split_and!.
    + exact Hc.
    + apply Hbot. apply (bool_decide_unpack _). vm_compute. exact I.
    + apply Hbot. apply (bool_decide_unpack _). vm_compute. exact I.
    + assert (Hlt : 0 < POSet__len__
                          (mkPOSet (premise <$> example_rules)
                                   compare_set_function true))
        by (vm_compute; lia).
      assert (Hnb : 0 ∉ POSet_bottom_elements
                          (mkPOSet (premise <$> example_rules)
                                   compare_set_function true))
        by (apply (bool_decide_unpack _); vm_compute; exact I).
      rewrite (Hother 0 Hlt Hnb). f_equal.
  - apply Hret. exact example_premises_known.
Defined.

(** C3 as the claim has it fails when the attribute list of the context is
    a premise of the tree.  Here it is the one premise, the bottom element
    at index 0: the conversion adds no concept, the lattice has the one
    concept of that premise and none at index 1, and the bottom element gets
    [{0}], its own index, as its direct sub-concepts. *)
Lemma conversion_bottom_own_index_counterexample :
  attribute_names example_context ∈ premise <$> single_rules
  ∧ POSet_bottom_elements
      (mkPOSet (premise <$> single_rules) compare_set_function true) = [0]
  ∧ rbind (concept_lattice_from_decision_tree example_context 0
             single_store).1
          (λ L, Ok (length (concepts L), concepts L !! 1,
                    subconcepts_dict L !! 0))
    = Ok (1, None, Some {[0]}).
Proof.
  split_and!.
  - exact single_premises_full.
  - vm_compute. reflexivity.
  - vm_compute. reflexivity.
Qed.

Lemma conversion_concepts_closed_witness :
  (∀ L h' c,
     concept_lattice_from_decision_tree example_context 0 example_store
     = (Ok L, h') →
     c ∈ concepts L →
     FormalContext_intention example_context (extent c) = Ok (intent c)
     ∧ context_hash c = 7%N)
  ∧ ∃ L h', concept_lattice_from_decision_tree example_context 0 example_store
            = (Ok L, h').
Proof.
  edestruct (conversion_concepts_closed example_context 0 example_store)
    as (Hclosed & Hret); [reflexivity|reflexivity|].
  split; [exact Hclosed|].
  apply Hret; [exact example_premises_new | exact example_premises_known].
Defined.

Lemma conversion_leaves_tree_unmodified_witness :
  DecisionPOSet_classification_rules 0
    (concept_lattice_from_decision_tree example_context 0 example_store).2
  = (Ok example_rules,
     (concept_lattice_from_decision_tree example_context 0 example_store).2)
  ∧ DecisionPOSet_classification_rules 0
      (concept_lattice_from_decision_tree example_context 0 full_store).2
    = (Ok full_rules,
       (concept_lattice_from_decision_tree example_context 0 full_store).2).
Proof.
  split.
  - edestruct (conversion_leaves_tree_unmodified example_context 0
                 example_store)
      as (_ & _ & _ & _ & _ & _ & Hrules);
      [reflexivity|reflexivity|reflexivity|apply surjective_pairing|].
    exact Hrules.
  - edestruct (conversion_leaves_tree_unmodified example_context 0 full_store)
      as (_ & _ & _ & _ & _ & _ & Hrules);
      [reflexivity|reflexivity|reflexivity|apply surjective_pairing|].
    exact Hrules.
Defined.

(** * Further properties *)

(** ** Comparison *)

Section CompareOrder.
Context {A : Type} `{Countable A}.

(** X1.  [compare_set_function] is a preorder on iterables that sees only
    the set of items: it is reflexive and transitive, two iterables are
    below each other exactly when they have the same items, and iterables
    with the same items compare alike. *)
Theorem compare_set_function_preorder (a a' b b' c : list A) :
  compare_set_function a a = true
  ∧ (compare_set_function a b = true → compare_set_function b c = true →
     compare_set_function a c = true)
  ∧ (compare_set_function a b = true ∧ compare_set_function b a = true
     ↔ (list_to_set a : gset A) = list_to_set b)
  ∧ ((list_to_set a : gset A) = list_to_set a' →
     (list_to_set b : gset A) = list_to_set b' →
     compare_set_function a b = compare_set_function a' b').
Proof.
  split_and!.
  - by apply compare_set_function_subseteq.
  - rewrite !compare_set_function_subseteq. intros Hab Hbc.
    by transitivity (list_to_set b : gset A).
  - rewrite !compare_set_function_subseteq. split.
    + intros [Hba Hab]. apply set_eq. intros x. split; [apply Hab|apply Hba].
    + intros ->. done.
  - intros Ha Hb. unfold compare_set_function. by rewrite Ha, Hb.
Qed.

(** X2.  Every iterable is below the empty one, and the empty iterable is
    below an iterable only when that one has no items. *)
Theorem compare_set_function_empty (a b : list A) :
  compare_set_function a [] = true
  ∧ (compare_set_function [] b = true ↔ b = []).
Proof.
  split.
  - apply compare_set_function_subseteq. rewrite list_to_set_nil.
    apply empty_subseteq.
  - rewrite compare_set_function_subseteq, list_to_set_nil. split.
    + intros Hsub. destruct b as [|x b]; [done|].
      assert (Hx : x ∈ (∅ : gset A)).
      { apply Hsub. rewrite list_to_set_cons. apply elem_of_union_l.
        by apply elem_of_singleton. }
      by apply not_elem_of_empty in Hx.
    + intros ->. by rewrite list_to_set_nil.
Qed.

End CompareOrder.

Lemma compare_set_function_preorder_witness :
  compare_set_function ["a"; "b"; "c"] ["b"; "a"] = true
  ∧ compare_set_function ["b"; "a"] ["a"] = true
  ∧ compare_set_function ["a"; "b"; "c"] ["a"] = true
  ∧ compare_set_function ["a"; "b"] ["b"; "a"; "a"]
    = compare_set_function ["b"; "a"] ["a"; "b"].
Proof.
  destruct (compare_set_function_preorder
              ["a"; "b"; "c"] ["a"; "b"; "c"] ["b"; "a"] ["b"; "a"] ["a"])
    as (_ & Htrans & _ & _).
  destruct (compare_set_function_preorder
              ["a"; "b"] ["b"; "a"] ["b"; "a"; "a"] ["a"; "b"] [])
    as (_ & _ & _ & Hset).
  assert (H1 : compare_set_function ["a"; "b"; "c"] ["b"; "a"] = true)
    by (vm_compute; reflexivity).
  assert (H2 : compare_set_function ["b"; "a"] ["a"] = true)
    by (vm_compute; reflexivity).
  split_and!; [exact H1|exact H2|exact (Htrans H1 H2)|].
  apply Hset; apply (bool_decide_unpack _); vm_compute; exact I.
Defined.

Lemma compare_set_function_empty_witness :
  compare_set_function ["a"] [] = true
  ∧ (compare_set_function [] ["a"] = true ↔ ["a"] = []).
Proof. exact (compare_set_function_empty ["a"] ["a"]). Defined.

(** ** The index map *)

Section IndexMapFacts.
Context {P T : Type} `{Countable P} `{EqDecision T}.
Implicit Types (h : store P T) (d : DecisionPOSet P) (ps : POSet P).
Implicit Types (ts : list T) (element : ClassificationRule P T).

Lemma elements_to_index_map_snoc (l : list P) (x : P) :
  elements_to_index_map (l ++ [x]) = <[x := length l]> (elements_to_index_map l).
Proof.
  unfold elements_to_index_map. rewrite imap_app, foldl_app. simpl.
  by rewrite Nat.add_0_r.
Qed.

(** X3.  The dictionary [{p: p_i for p_i, p in enumerate(premises)}] sends a
    premise to the last position that holds it, and has no entry for
    anything else; when the premises are pairwise distinct it sends each
    premise to its position. *)
Theorem elements_to_index_map_lookup (l : list P) (p : P) (i : nat) :
  (elements_to_index_map l !! p = Some i
   ↔ l !! i = Some p ∧ ∀ j, i < j → l !! j ≠ Some p)
  ∧ (elements_to_index_map l !! p = None ↔ p ∉ l)
  ∧ (NoDup l → (elements_to_index_map l !! p = Some i ↔ l !! i = Some p)).
Proof.
  assert (Hlast : ∀ l i,
            elements_to_index_map l !! p = Some i
            ↔ l !! i = Some p ∧ ∀ j, i < j → l !! j ≠ Some p).
  { clear l i. induction l as [|x l IH] using rev_ind; intros i.
    - unfold elements_to_index_map. simpl. rewrite lookup_empty.
      split; [done|]. intros [Hi _]. by rewrite lookup_nil in Hi.
    - rewrite elements_to_index_map_snoc.
      destruct (decide (x = p)) as [->|Hne].
      + rewrite lookup_insert_eq. split.
        * intros [= <-]. split.
          -- by rewrite lookup_app_r, Nat.sub_diag by lia.
          -- intros j Hj Hl. apply lookup_lt_Some in Hl.
             rewrite length_app in Hl. simpl in Hl. lia.
        * intros [Hi Hlater]. f_equal.
          destruct (decide (i = length l)) as [->|Hi']; [done|].
          apply lookup_lt_Some in Hi as Hlt.
          rewrite length_app in Hlt. simpl in Hlt.
          destruct (Hlater (length l)); [lia|].
          by rewrite lookup_app_r, Nat.sub_diag by lia.
      + rewrite lookup_insert_ne by done. rewrite IH. split.
        * intros [Hi Hlater]. split; [by apply lookup_app_l_Some|].
          intros j Hj Hl. apply lookup_snoc_Some in Hl as [[_ Hl]|[_ Hl]];
            [by eapply Hlater|done].
        * intros [Hi Hlater].
          apply lookup_snoc_Some in Hi as [[Hlt Hi]|[_ Hi]]; [|done].
          split; [done|]. intros j Hj Hl. apply (Hlater j Hj).
          by apply lookup_app_l_Some. }
  assert (Hnone : elements_to_index_map l !! p = None ↔ p ∉ l).
  { clear i. induction l as [|x l IH] using rev_ind.
    - unfold elements_to_index_map. simpl. rewrite lookup_empty.
      split; [intros _; apply not_elem_of_nil|done].
    - rewrite elements_to_index_map_snoc, not_elem_of_app, <- IH.
      destruct (decide (x = p)) as [->|Hne].
      + rewrite lookup_insert_eq. split; [done|].
        intros [_ Hp]. destruct Hp. by apply list_elem_of_singleton.
      + rewrite lookup_insert_ne by done. split.
        * intros Hl. split; [done|]. by intros ->%list_elem_of_singleton.
        * by intros [Hl _]. }
  split_and!; [apply Hlast|exact Hnone|].
  intros Hnd. rewrite Hlast. split; [by intros [Hi _]|].
  intros Hi. split; [done|]. intros j Hj Hl.
  pose proof (NoDup_lookup _ _ _ _ Hnd Hi Hl). lia.
Qed.

(** X4.  The constructor leaves the index map of the premises in the new
    decision poset, and a call of [add] or [__delitem__] that returns
    leaves the index map of the premises as they are after the call. *)
Theorem index_map_rebuilt h h' self d ps ts classification_rules premises
    targets use_cache leq_premise_func direct_subelements_dict element
    fill_up_cache k :
  (DecisionPOSet__init__ classification_rules premises targets use_cache
     leq_premise_func direct_subelements_dict h = (Ok self, h') →
   index_map_current h' self)
  ∧ (dposets h !! self = Some d → posets h !! _premises d = Some ps →
     lists h !! _targets d = Some ts →
     DecisionPOSet_add self element fill_up_cache h = (Ok tt, h') →
     index_map_current h' self)
  ∧ (dposets h !! self = Some d → posets h !! _premises d = Some ps →
     lists h !! _targets d = Some ts →
     DecisionPOSet__delitem__ self k h = (Ok tt, h') →
     index_map_current h' self).
Proof.
  split_and!.
  - intros Hrun.
    destruct (init_ok_inv _ _ _ _ _ _ _ _ _ Hrun) as (l & Hargs & Hsup).
    destruct (init_run_unique h classification_rules premises targets
                use_cache leq_premise_func direct_subelements_dict l
                Hargs Hsup)
      as (h1 & pl & tl & s1 & Hs1 & Hl & Hd & Hframe & Htl & Hrun').
    rewrite Hrun' in Hrun. destruct (bool_decide (NoDup l)); [|done].
    unfold new_dposet in Hrun. inversion Hrun as [[Hself Hh']]; clear Hrun.
    eexists _, s1. cbn [posets lists dposets].
    split_and!; [apply lookup_insert_eq|done|].
    cbn [_elements_to_index_map]. by rewrite Hl.
  - intros Hd Hps Hts Hrun.
    rewrite (run_add h self d ps ts element fill_up_cache Hd Hps Hts) in Hrun.
    destruct (POSet_add ps (premise element)) as [ps'|e]; [|done].
    inversion Hrun; subst. eexists _, ps'. unfold updated.
    cbn [posets lists dposets].
    split_and!; [apply lookup_insert_eq|apply lookup_insert_eq|done].
  - intros Hd Hps Hts Hrun.
    rewrite (run_delitem h self d ps ts k Hd Hps Hts) in Hrun.
    destruct (POSet__delitem__ ps k) as [ps'|e]; [|done].
    destruct (delitem ts k) as [ts'|e]; [|done].
    inversion Hrun; subst. eexists _, ps'. unfold updated.
    cbn [posets lists dposets].
    split_and!; [apply lookup_insert_eq|apply lookup_insert_eq|done].
Qed.

End IndexMapFacts.

Lemma elements_to_index_map_lookup_witness :
  (elements_to_index_map [["a"]; ["b"]; ["a"]] !! ["a"] = Some 2
   ↔ [["a"]; ["b"]; ["a"]] !! 2 = Some ["a"]
     ∧ ∀ j, 2 < j → [["a"]; ["b"]; ["a"]] !! j ≠ Some ["a"])
  ∧ (elements_to_index_map (premise <$> example_rules) !! ["c"] = Some 2
     ↔ (premise <$> example_rules) !! 2 = Some ["c"]).
Proof.
  split.
  - apply (elements_to_index_map_lookup [["a"]; ["b"]; ["a"]] ["a"] 2).
  - apply (elements_to_index_map_lookup (premise <$> example_rules) ["c"] 2).
    apply (bool_decide_unpack _). vm_compute. exact I.
Defined.

Lemma index_map_rebuilt_witness :
  index_map_current example_store 0
  ∧ index_map_current
      (DecisionPOSet_add 0 (mkRule ["a"] "no") true example_store).2 0
  ∧ index_map_current
      (DecisionPOSet__delitem__ 0 (KInt (-1)) example_store).2 0.
Proof.
  split_and!.
  - destruct (index_map_rebuilt empty_store example_store 0
                (mkDecisionPOSet 0 0 ∅ true)
                (mkPOSet [] compare_set_function true) []
                (Some example_rules) None None true compare_set_function
                None (mkRule [] "") true (KInt 0)) as (Hinit & _).
    apply Hinit. reflexivity.
  - destruct (index_map_rebuilt example_store
                (DecisionPOSet_add 0 (mkRule ["a"] "no") true example_store).2
                0
                (mkDecisionPOSet 0 0
                   (elements_to_index_map (premise <$> example_rules)) true)
                (mkPOSet (premise <$> example_rules) compare_set_function
                   true)
                (target <$> example_rules)
                None None None true compare_set_function None
                (mkRule ["a"] "no") true (KInt 0)) as (_ & Hadd & _).
    apply Hadd; reflexivity.
  - destruct (index_map_rebuilt example_store
                (DecisionPOSet__delitem__ 0 (KInt (-1)) example_store).2
                0
                (mkDecisionPOSet 0 0
                   (elements_to_index_map (premise <$> example_rules)) true)
                (mkPOSet (premise <$> example_rules) compare_set_function
                   true)
                (target <$> example_rules)
                None None None true compare_set_function None
                (mkRule [] "") true (KInt (-1))) as (_ & _ & Hdel).
    apply Hdel; reflexivity.
Defined.

(** ** Construction and lookup *)

Section ConstructionFacts.
Context {P T : Type} `{Countable P} `{EqDecision T}.
Implicit Types (h : store P T) (d : DecisionPOSet P) (ps : POSet P).
Implicit Types (ts : list T) (element : ClassificationRule P T).

Ltac run_store :=
  repeat first
    [ progress cbn [posets lists dposets fst snd _premises _targets]
    | rewrite lookup_insert_eq
    | match goal with
      | Hl : ?m !! ?l = Some _ |- context [?m !! ?l] => rewrite Hl
      end ].

Lemma bool_decide_unique (l : list P) :
  NoDup l →
  bool_decide (size (list_to_set l : gset P) = length l) = true.
Proof. intros Hnd. apply bool_decide_eq_true. by apply size_list_to_set. Qed.

Lemma run_init_rules h rules premises targets use_cache leq_premise_func
    direct_subelements_dict :
  NoDup (premise <$> rules) →
  DecisionPOSet__init__ (Some rules) premises targets use_cache
    leq_premise_func direct_subelements_dict h
  = (Ok (fresh (dom (dposets h))),
     mkStore (<[fresh (dom (posets h))
                := mkPOSet (premise <$> rules) leq_premise_func use_cache]>
                (posets h))
             (<[fresh (dom (lists h)) := target <$> rules]> (lists h))
             (<[fresh (dom (dposets h))
                := mkDecisionPOSet (fresh (dom (posets h)))
                     (fresh (dom (lists h)))
                     (elements_to_index_map (premise <$> rules)) use_cache]>
                (dposets h))).
Proof.
  intros Hnd. unfold DecisionPOSet__init__.
  unfold bind at 1 2. simpl. unfold bind at 1 2. simpl.
  unfold bind, read_poset. simpl. rewrite lookup_insert_eq. simpl.
  by rewrite bool_decide_unique.
Qed.

Lemma run_init_iter h elements tl use_cache leq_premise_func
    direct_subelements_dict :
  NoDup elements →
  DecisionPOSet__init__ None (Some (PremisesIter elements)) (Some tl)
    use_cache leq_premise_func direct_subelements_dict h
  = (Ok (fresh (dom (dposets h))),
     mkStore (<[fresh (dom (posets h))
                := mkPOSet elements leq_premise_func use_cache]> (posets h))
             (lists h)
             (<[fresh (dom (dposets h))
                := mkDecisionPOSet (fresh (dom (posets h))) tl
                     (elements_to_index_map elements) use_cache]>
                (dposets h))).
Proof.
  intros Hnd. unfold DecisionPOSet__init__.
  unfold bind at 1 2. simpl. unfold bind at 1. simpl.
  unfold bind, read_poset. simpl. rewrite lookup_insert_eq. simpl.
  by rewrite bool_decide_unique.
Qed.

Lemma run_init_poset h l0 ps tl use_cache leq_premise_func
    direct_subelements_dict :
  posets h !! l0 = Some ps → NoDup (poset_elements ps) →
  DecisionPOSet__init__ None (Some (PremisesPOSet l0)) (Some tl)
    use_cache leq_premise_func direct_subelements_dict h
  = (Ok (fresh (dom (dposets h))),
     mkStore (posets h) (lists h)
             (<[fresh (dom (dposets h))
                := mkDecisionPOSet l0 tl
                     (elements_to_index_map (poset_elements ps)) use_cache]>
                (dposets h))).
Proof.
  intros Hps Hnd. unfold DecisionPOSet__init__.
  unfold bind at 1 2. simpl. unfold bind at 1. simpl.
  unfold bind, read_poset. rewrite Hps. simpl.
  by rewrite bool_decide_unique.
Qed.

Lemma zip_with_premise_target (rules : list (ClassificationRule P T)) :
  zip_with mkRule (premise <$> rules) (target <$> rules) = rules.
Proof.
  induction rules as [|[p t] rules IH]; [done|].
  rewrite !fmap_cons. cbn [zip_with premise target]. by rewrite IH.
Qed.

Lemma fresh_lookup_ne {V} (m : gmap nat V) k x :
  m !! k = Some x → fresh (dom m) ≠ k.
Proof.
  intros Hk Heq. apply (is_fresh (dom m)). rewrite Heq.
  apply elem_of_dom. eauto.
Qed.

(** X5.  Built from rules with pairwise distinct premises, the constructor
    returns a new decision poset whose [classification_rules] are the rules
    it was given, in order, and whose length is their number; the objects
    the store held before are untouched, the [premises] and [targets]
    arguments are not looked at. *)
Theorem DecisionPOSet__init___rules_round_trip h rules premises targets
    use_cache leq_premise_func direct_subelements_dict :
  NoDup (premise <$> rules) →
  ∃ self h',
    DecisionPOSet__init__ (Some rules) premises targets use_cache
      leq_premise_func direct_subelements_dict h = (Ok self, h')
    ∧ dposets h !! self = None
    ∧ DecisionPOSet_classification_rules self h' = (Ok rules, h')
    ∧ DecisionPOSet__len__ self h' = (Ok (length rules), h')
    ∧ (∀ k s, posets h !! k = Some s → posets h' !! k = Some s)
    ∧ (∀ k ts, lists h !! k = Some ts → lists h' !! k = Some ts)
    ∧ (∀ k d, dposets h !! k = Some d → dposets h' !! k = Some d).
Proof.
  intros Hnd. eexists _, _. split; [by apply run_init_rules|].
  set (h' := mkStore _ _ _).
  assert (Hd : dposets h' !! fresh (dom (dposets h))
               = Some (mkDecisionPOSet (fresh (dom (posets h)))
                         (fresh (dom (lists h)))
                         (elements_to_index_map (premise <$> rules))
                         use_cache)) by apply lookup_insert_eq.
  assert (Hps : posets h' !! fresh (dom (posets h))
                = Some (mkPOSet (premise <$> rules) leq_premise_func
                          use_cache)) by apply lookup_insert_eq.
  assert (Hts : lists h' !! fresh (dom (lists h)) = Some (target <$> rules))
    by apply lookup_insert_eq.
  split_and!.
  - apply not_elem_of_dom. apply is_fresh.
  - unfold DecisionPOSet_classification_rules, bind.
    rewrite (run_premises h' _ _ _ Hd Hps).
    rewrite (run_targets h' _ _ _ Hd Hts). unfold ret.
    cbn [poset_elements]. by rewrite zip_with_premise_target.
  - unfold DecisionPOSet__len__, bind.
    rewrite (run_premises h' _ _ _ Hd Hps). unfold ret, POSet__len__.
    cbn [poset_elements]. by rewrite length_fmap.
  - intros k s Hk. unfold h'. cbn [posets].
    rewrite lookup_insert_ne by (by eapply fresh_lookup_ne). done.
  - intros k ts Hk. unfold h'. cbn [lists].
    rewrite lookup_insert_ne by (by eapply fresh_lookup_ne). done.
  - intros k d Hk. unfold h'. cbn [dposets].
    rewrite lookup_insert_ne by (by eapply fresh_lookup_ne). done.
Qed.

(** X6.  Built from a (premises, targets) pair, the decision poset keeps the
    caller's target list itself, and the caller's ordered set itself when
    [premises] is one: an item the caller appends to the list afterwards
    shows in [dp.targets] while [len(dp)] stays, and an element the caller
    adds to the ordered set afterwards raises [len(dp)] while [dp.targets]
    stays. *)
Theorem DecisionPOSet__init___pair_shares h elements l0 ps tl ts use_cache
    leq_premise_func direct_subelements_dict (t : T) (p : P) :
  lists h !! tl = Some ts →
  (NoDup elements →
   ∃ self h',
     DecisionPOSet__init__ None (Some (PremisesIter elements)) (Some tl)
       use_cache leq_premise_func direct_subelements_dict h = (Ok self, h')
     ∧ DecisionPOSet_targets self h' = (Ok ts, h')
     ∧ ((list_append tl t ;; DecisionPOSet_targets self) h').1
       = Ok (ts ++ [t])
     ∧ ((list_append tl t ;; DecisionPOSet__len__ self) h').1
       = Ok (length elements))
  ∧ (posets h !! l0 = Some ps → NoDup (poset_elements ps) →
     p ∉ poset_elements ps →
     ∃ self h',
       DecisionPOSet__init__ None (Some (PremisesPOSet l0)) (Some tl)
         use_cache leq_premise_func direct_subelements_dict h = (Ok self, h')
       ∧ DecisionPOSet__len__ self h' = (Ok (length (poset_elements ps)), h')
       ∧ ((poset_add l0 p ;; DecisionPOSet__len__ self) h').1
         = Ok (S (length (poset_elements ps)))
       ∧ ((poset_add l0 p ;; DecisionPOSet_targets self) h').1 = Ok ts).
Proof.
  intros Hts. split.
  - intros Hnd. eexists _, _. split; [by apply run_init_iter|].
    split_and!.
    + unfold DecisionPOSet_targets, bind, read_dposet, read_list.
      by run_store.
    + unfold list_append, DecisionPOSet_targets, bind, read_dposet,
        read_list, write_list.
      by run_store.
    + unfold list_append, DecisionPOSet__len__, DecisionPOSet_premises,
        bind, read_dposet, read_list, read_poset, write_list.
      by run_store.
  - intros Hps Hnd Hnew. eexists _, _.
    split; [by apply (run_init_poset h l0 ps)|].
    split_and!.
    + unfold DecisionPOSet__len__, DecisionPOSet_premises, bind,
        read_dposet, read_poset.
      by run_store.
    + unfold poset_add, DecisionPOSet__len__, DecisionPOSet_premises, bind,
        read_dposet, read_poset, write_poset, lift, POSet_add.
      run_store. rewrite bool_decide_eq_false_2 by done.
      run_store. unfold ret, POSet__len__.
      cbn [fst poset_elements]. rewrite length_app. simpl.
      f_equal. lia.
    + unfold poset_add, DecisionPOSet_targets, bind, read_dposet,
        read_poset, read_list, write_poset, lift, POSet_add.
      run_store. rewrite bool_decide_eq_false_2 by done.
      by run_store.
Qed.

(** X7.  [classification_rules] pairs premise [i] with target [i] and stops
    at the shorter of the two sequences; when the premises are pairwise
    distinct, [index] of the rule listed at position [i] returns [i], and
    [index] returns [i] only for the rule listed at position [i]. *)
Theorem classification_rules_index_round_trip h self d ps ts i
    (r : ClassificationRule P T) :
  dposets h !! self = Some d → posets h !! _premises d = Some ps →
  lists h !! _targets d = Some ts →
  ∃ rules,
    DecisionPOSet_classification_rules self h = (Ok rules, h)
    ∧ DecisionPOSet_elements self h = (Ok rules, h)
    ∧ length rules = length (poset_elements ps) `min` length ts
    ∧ (rules !! i = Some r
       ↔ poset_elements ps !! i = Some (premise r)
         ∧ ts !! i = Some (target r))
    ∧ (NoDup (poset_elements ps) →
       (rules !! i = Some r
        ↔ DecisionPOSet_index self r h = (Ok (Some i), h))).
Proof.
  intros Hd Hps Hts. exists (zip_with mkRule (poset_elements ps) ts).
  assert (Hrules : DecisionPOSet_classification_rules self h
                   = (Ok (zip_with mkRule (poset_elements ps) ts), h)).
  { unfold DecisionPOSet_classification_rules, bind.
    rewrite (run_premises h self d ps Hd Hps).
    by rewrite (run_targets h self d ts Hd Hts). }
  assert (Hlookup : zip_with mkRule (poset_elements ps) ts !! i = Some r
                    ↔ poset_elements ps !! i = Some (premise r)
                      ∧ ts !! i = Some (target r)).
  { rewrite lookup_zip_with_Some. split.
    - intros (p & t & -> & Hp & Ht). done.
    - intros [Hp Ht]. exists (premise r), (target r). by destruct r. }
  split_and!; [done|done|apply length_zip_with|done|].
  intros Hnd. rewrite Hlookup.
  rewrite (run_index h self d ps ts r Hd Hps Hts). split.
  - intros [Hp Ht]. rewrite (POSet_index_lookup ps _ i Hnd Hp). simpl.
    unfold getitem. rewrite Ht. simpl. by rewrite bool_decide_eq_true_2.
  - intros Hrun.
    destruct (POSet_index ps (premise r)) as [j|e] eqn:Hj; simpl in Hrun;
      [|by inversion Hrun].
    apply POSet_index_ok in Hj. unfold getitem in Hrun.
    destruct (ts !! j) as [t0|] eqn:Ht0; simpl in Hrun; [|by inversion Hrun].
    destruct (bool_decide (t0 = target r)) eqn:Hdec; [|by inversion Hrun].
    apply bool_decide_eq_true in Hdec. inversion Hrun; subst. done.
Qed.

End ConstructionFacts.

Lemma DecisionPOSet__init___rules_round_trip_witness :
  ∃ self h',
    DecisionPOSet__init__ (Some example_rules) None None true
      compare_set_function None empty_store = (Ok self, h')
    ∧ dposets (empty_store (P := list string) (T := string)) !! self = None
    ∧ DecisionPOSet_classification_rules self h' = (Ok example_rules, h')
    ∧ DecisionPOSet__len__ self h' = (Ok 3, h').
Proof.
  destruct (DecisionPOSet__init___rules_round_trip
              (empty_store (T := string)) example_rules None None true
              compare_set_function None)
    as (self & h' & Hrun & Hnew & Hrules & Hlen & _).
  - apply (bool_decide_unpack _). vm_compute. exact I.
  - exists self, h'. split_and!; done.
Defined.

Lemma DecisionPOSet__init___pair_shares_witness :
  (∃ self h',
     DecisionPOSet__init__ None (Some (PremisesIter [["a"]])) (Some 0)
       true compare_set_function None shared_store = (Ok self, h')
     ∧ ((list_append 0 "y" ;; DecisionPOSet_targets self) h').1
       = Ok ["x"; "y"]
     ∧ ((list_append 0 "y" ;; DecisionPOSet__len__ self) h').1 = Ok 1)
  ∧ (∃ self h',
       DecisionPOSet__init__ None (Some (PremisesPOSet 0)) (Some 0)
         true compare_set_function None shared_store = (Ok self, h')
       ∧ ((poset_add 0 ["b"] ;; DecisionPOSet__len__ self) h').1 = Ok 2
       ∧ ((poset_add 0 ["b"] ;; DecisionPOSet_targets self) h').1
         = Ok ["x"]).
Proof.
  destruct (DecisionPOSet__init___pair_shares shared_store [["a"]] 0
              (mkPOSet [["a"]] compare_set_function true) 0 ["x"] true
              compare_set_function None "y" ["b"] eq_refl)
    as (Hiter & Hposet).
  split.
  - destruct Hiter as (self & h' & Hrun & _ & Happ & Hlen).
    + apply (bool_decide_unpack _). vm_compute. exact I.
    + exists self, h'. split_and!; done.
  - destruct Hposet as (self & h' & Hrun & _ & Hlen & Hts).
    + reflexivity.
    + apply (bool_decide_unpack _). vm_compute. exact I.
    + apply (bool_decide_unpack _). vm_compute. exact I.
    + exists self, h'. split_and!; done.
Defined.

Lemma classification_rules_index_round_trip_witness :
  ∃ rules,
    DecisionPOSet_classification_rules 0 example_store
    = (Ok rules, example_store)
    ∧ (rules !! 1 = Some (mkRule ["a"; "b"] "no")
       ↔ DecisionPOSet_index 0 (mkRule ["a"; "b"] "no") example_store
         = (Ok (Some 1), example_store)).
Proof.
  edestruct (classification_rules_index_round_trip example_store 0)
    with (i := 1) (r := mkRule ["a"; "b"] "no")
    as (rules & Hrules & _ & _ & _ & Hindex);
    [reflexivity|reflexivity|reflexivity|].
  exists rules. split; [exact Hrules|]. apply Hindex.
  apply (bool_decide_unpack _). vm_compute. exact I.
Defined.

(** ** Deletion *)

Section DeletionFacts.
Context {P T : Type} `{Countable P} `{EqDecision T}.
Implicit Types (h : store P T) (d : DecisionPOSet P) (ps : POSet P).
Implicit Types (ts : list T) (element : ClassificationRule P T).

Lemma drop_selected_zip_with {X Y Z} (f : X → Y → Z) sel i
    (l1 : list X) (l2 : list Y) :
  drop_selected sel i (zip_with f l1 l2)
  = zip_with f (drop_selected sel i l1) (drop_selected sel i l2).
Proof.
  revert i l2. induction l1 as [|x l1 IH]; intros i l2; [done|].
  destruct l2 as [|y l2]; simpl.
  - by destruct (sel i); destruct (drop_selected sel (S i) l1).
  - destruct (sel i); simpl; by rewrite IH.
Qed.

Lemma delitem_zip_with {X Y Z} (f : X → Y → Z) (l1 : list X) (l2 : list Y) k :
  length l1 = length l2 →
  delitem (zip_with f l1 l2) k
  = rbind (delitem l1 k) (λ a, rbind (delitem l2 k) (λ b,
      Ok (zip_with f a b))).
Proof.
  intros Hlen. unfold delitem. rewrite length_zip_with, <- Hlen, Nat.min_id.
  destruct k as [i|start stop step].
  - destruct (_ || _); [done|]. simpl. by rewrite drop_selected_zip_with.
  - destruct (bool_decide _); [done|].
    destruct (slice_indices _ _ _ _) as [[lo hi] st]. simpl.
    by rewrite drop_selected_zip_with.
Qed.

Lemma drop_selected_none {X} (l : list X) m j :
  j < m → drop_selected (λ n, bool_decide (n = j)) m l = l.
Proof.
  revert m. induction l as [|x l IH]; intros m Hj; simpl; [done|].
  rewrite bool_decide_eq_false_2 by lia. f_equal. apply IH. lia.
Qed.

Lemma drop_selected_delete {X} (l : list X) k j :
  drop_selected (λ n, bool_decide (n = k + j)) k l = delete j l.
Proof.
  revert k j. induction l as [|x l IH]; intros k j; simpl; [done|].
  destruct j as [|j].
  - rewrite bool_decide_eq_true_2 by lia. simpl.
    apply drop_selected_none. lia.
  - rewrite bool_decide_eq_false_2 by lia. simpl. f_equal.
    replace (k + S j) with (S k + j) by lia. apply IH.
Qed.

Lemma delitem_int {X} (l : list X) (i : Z) :
  delitem l (KInt i)
  = if bool_decide (- Z.of_nat (length l) ≤ i < Z.of_nat (length l))%Z
    then Ok (delete (position (length l) i) l)
    else Raise IndexError.
Proof.
  unfold delitem, position.
  destruct (i <? 0)%Z eqn:Hneg;
    [apply Z.ltb_lt in Hneg | apply Z.ltb_ge in Hneg].
  - destruct (_ || _) eqn:Hout.
    + rewrite bool_decide_eq_false_2; [done|].
      apply orb_true_iff in Hout as [Hout|Hout];
        [apply Z.ltb_lt in Hout | apply Z.leb_le in Hout]; lia.
    + apply orb_false_iff in Hout as [Hlo Hhi].
      apply Z.ltb_ge in Hlo. apply Z.leb_gt in Hhi.
      rewrite bool_decide_eq_true_2 by lia. f_equal.
      apply (drop_selected_delete l 0).
  - destruct (_ || _) eqn:Hout.
    + rewrite bool_decide_eq_false_2; [done|].
      apply orb_true_iff in Hout as [Hout|Hout];
        [apply Z.ltb_lt in Hout | apply Z.leb_le in Hout]; lia.
    + apply orb_false_iff in Hout as [Hlo Hhi].
      apply Z.ltb_ge in Hlo. apply Z.leb_gt in Hhi.
      rewrite bool_decide_eq_true_2 by lia. f_equal.
      apply (drop_selected_delete l 0).
Qed.

Lemma run_rules h self d ps ts :
  dposets h !! self = Some d → posets h !! _premises d = Some ps →
  lists h !! _targets d = Some ts →
  DecisionPOSet_classification_rules self h
  = (Ok (zip_with mkRule (poset_elements ps) ts), h).
Proof.
  intros Hd Hps Hts. unfold DecisionPOSet_classification_rules, bind.
  rewrite (run_premises h self d ps Hd Hps).
  by rewrite (run_targets h self d ts Hd Hts).
Qed.

Lemma run_len h self d ps :
  dposets h !! self = Some d → posets h !! _premises d = Some ps →
  DecisionPOSet__len__ self h = (Ok (length (poset_elements ps)), h).
Proof.
  intros Hd Hps. unfold DecisionPOSet__len__, bind.
  by rewrite (run_premises h self d ps Hd Hps).
Qed.

Lemma updated_rules h self d ps' ts' :
  DecisionPOSet_classification_rules self (updated h self d ps' ts')
  = (Ok (zip_with mkRule (poset_elements ps') ts'), updated h self d ps' ts').
Proof.
  apply (run_rules _ self
           (mkDecisionPOSet (_premises d) (_targets d)
              (elements_to_index_map (poset_elements ps')) (_use_cache d)));
    apply lookup_insert_eq.
Qed.

Lemma updated_len h self d ps' ts' :
  DecisionPOSet__len__ self (updated h self d ps' ts')
  = (Ok (length (poset_elements ps')), updated h self d ps' ts').
Proof.
  apply (run_len _ self
           (mkDecisionPOSet (_premises d) (_targets d)
              (elements_to_index_map (poset_elements ps')) (_use_cache d)));
    apply lookup_insert_eq.
Qed.

Lemma delitem_on_rules h self d ps ts :
  dposets h !! self = Some d → posets h !! _premises d = Some ps →
  lists h !! _targets d = Some ts →
  length (poset_elements ps) = length ts →
  ∃ rules,
    DecisionPOSet_classification_rules self h = (Ok rules, h)
    ∧ length rules = length ts
    ∧ ∀ i : Z,
        (∀ rules', delitem rules (KInt i) = Ok rules' →
           ∃ h', DecisionPOSet__delitem__ self (KInt i) h = (Ok tt, h')
                 ∧ DecisionPOSet_classification_rules self h'
                   = (Ok rules', h')
                 ∧ DecisionPOSet__len__ self h' = (Ok (length rules'), h'))
        ∧ (∀ e, delitem rules (KInt i) = Raise e →
             DecisionPOSet__delitem__ self (KInt i) h = (Raise e, h)).
Proof.
  intros Hd Hps Hts Hlen. exists (zip_with mkRule (poset_elements ps) ts).
  split; [by apply (run_rules h self d ps ts)|].
  split; [rewrite length_zip_with; lia|]. intros i.
  rewrite (delitem_zip_with mkRule _ _ (KInt i) Hlen).
  rewrite (run_delitem h self d ps ts (KInt i) Hd Hps Hts).
  cbn [POSet__delitem__].
  destruct (delitem_shape (poset_elements ps) ts (KInt i) Hlen)
    as [(e & He1 & He2)|(a & b & Ha & Hb & Hab)].
  - rewrite He1. cbn [rbind]. split; [done|]. by intros e' [= <-].
  - rewrite Ha, Hb. cbn [rbind poset_elements]. split; [|done].
    intros rules' [= <-].
    eexists. split; [done|]. split.
    + by rewrite updated_rules.
    + rewrite updated_len. cbn [poset_elements].
      rewrite length_zip_with. repeat f_equal. lia.
Qed.

(** X9.  On a decision poset whose premises and targets have the same
    length [n], [del dp[i]] for an integer [-n <= i < n] returns, lowers the
    length by one and removes the rule at position [i] (counted from the end
    when [i] is negative), the rules before it keeping their index and the
    rules after it moving down by one; for any other integer it raises
    [IndexError], and for a slice of step 0 [ValueError], the store being as
    it was. *)
Theorem DecisionPOSet__delitem___integer h self d ps ts (i : Z) start stop :
  dposets h !! self = Some d → posets h !! _premises d = Some ps →
  lists h !! _targets d = Some ts →
  length (poset_elements ps) = length ts →
  ∃ rules,
    DecisionPOSet_classification_rules self h = (Ok rules, h)
    ∧ length rules = length ts
    ∧ ((- Z.of_nat (length ts) ≤ i < Z.of_nat (length ts))%Z →
       ∃ h' rules',
         DecisionPOSet__delitem__ self (KInt i) h = (Ok tt, h')
         ∧ DecisionPOSet_classification_rules self h' = (Ok rules', h')
         ∧ DecisionPOSet__len__ self h' = (Ok (length ts - 1), h')
         ∧ rules' = delete (position (length ts) i) rules
         ∧ (∀ j, j < position (length ts) i → rules' !! j = rules !! j)
         ∧ (∀ j, position (length ts) i ≤ j → rules' !! j = rules !! S j))
    ∧ (¬ (- Z.of_nat (length ts) ≤ i < Z.of_nat (length ts))%Z →
       DecisionPOSet__delitem__ self (KInt i) h = (Raise IndexError, h))
    ∧ DecisionPOSet__delitem__ self (KSlice start stop (Some 0%Z)) h
      = (Raise ValueError, h).
Proof.
  intros Hd Hps Hts Hlen.
  destruct (delitem_on_rules h self d ps ts Hd Hps Hts Hlen)
    as (rules & Hrules & Hrlen & Hdel).
  exists rules. split_and!; [done|done| | |].
  - intros Hi.
    destruct (Hdel i) as [Hok _].
    destruct (Hok (delete (position (length ts) i) rules))
      as (h' & Hrun & Hrules' & Hlen').
    { rewrite delitem_int, Hrlen. by rewrite bool_decide_eq_true_2. }
    exists h', (delete (position (length ts) i) rules).
    split_and!; try done.
    + rewrite Hlen'. repeat f_equal. rewrite length_delete; [lia|].
      apply lookup_lt_is_Some_2. unfold position.
      destruct (Z.ltb_spec i 0); lia.
    + intros j Hj. by apply list_lookup_delete_lt.
    + intros j Hj. by apply list_lookup_delete_ge.
  - intros Hi. destruct (Hdel i) as [_ Herr]. apply Herr.
    rewrite delitem_int, Hrlen. by rewrite bool_decide_eq_false_2.
  - by rewrite (run_delitem h self d ps ts _ Hd Hps Hts).
Qed.

End DeletionFacts.

Section DeletionFacts2.
Context {P T : Type} `{Countable P} `{EqDecision T}.
Implicit Types (h : store P T) (d : DecisionPOSet P) (ps : POSet P).
Implicit Types (ts : list T) (element : ClassificationRule P T).

(** X10.  When the decision poset has more premises than targets and [i]
    is a position that only the premises have, [del dp[i]] removes premise
    [i], then raises [IndexError] on the targets: afterwards the premise is
    gone and [len(dp)] is one less, while the targets and the decision
    poset's own fields, the index map among them, are as before the call. *)
Theorem DecisionPOSet__delitem___half_done h self d ps ts (i : nat) :
  dposets h !! self = Some d → posets h !! _premises d = Some ps →
  lists h !! _targets d = Some ts →
  length ts ≤ i < length (poset_elements ps) →
  ∃ h',
    DecisionPOSet__delitem__ self (KInt (Z.of_nat i)) h
    = (Raise IndexError, h')
    ∧ posets h' !! _premises d
      = Some (mkPOSet (delete i (poset_elements ps))
                      (leq_func ps) (use_cache ps))
    ∧ DecisionPOSet__len__ self h'
      = (Ok (length (poset_elements ps) - 1), h')
    ∧ lists h' = lists h
    ∧ dposets h' = dposets h.
Proof.
  intros Hd Hps Hts Hi.
  rewrite (run_delitem h self d ps ts _ Hd Hps Hts).
  cbn [POSet__delitem__]. rewrite !delitem_int.
  rewrite bool_decide_eq_true_2 by lia.
  rewrite bool_decide_eq_false_2 by lia.
  cbn [rbind]. unfold position.
  destruct (Z.ltb_spec (Z.of_nat i) 0) as [?|_]; [lia|].
  rewrite Nat2Z.id. eexists. split; [done|].
  cbn [posets lists dposets]. split_and!; try done.
  - apply lookup_insert_eq.
  - rewrite (run_len _ self d
               (mkPOSet (delete i (poset_elements ps))
                        (leq_func ps) (use_cache ps))).
    + cbn [poset_elements]. rewrite length_delete; [done|].
      apply lookup_lt_is_Some_2. lia.
    + done.
    + apply lookup_insert_eq.
Qed.

(** X11.  The premises of a decision poset are pairwise distinct after the
    constructor has returned it, and stay so across every call of [add] and
    [__delitem__], returning or raising. *)
Theorem premises_stay_distinct h h' self (out : result unit)
    classification_rules premises targets use_cache leq_premise_func
    direct_subelements_dict element fill_up_cache k :
  ((∀ tl, classification_rules = None → targets = Some tl →
          is_Some (lists h !! tl)) →
   DecisionPOSet__init__ classification_rules premises targets use_cache
     leq_premise_func direct_subelements_dict h = (Ok self, h') →
   unique_premises h' self)
  ∧ (unique_premises h self →
     DecisionPOSet_add self element fill_up_cache h = (out, h') →
     unique_premises h' self)
  ∧ (unique_premises h self →
     DecisionPOSet__delitem__ self k h = (out, h') →
     unique_premises h' self).
Proof.
  split_and!.
  - apply init_establishes_unique.
  - apply add_preserves_unique.
  - apply delitem_preserves_unique.
Qed.

End DeletionFacts2.

Lemma DecisionPOSet__delitem___integer_witness :
  ∃ rules h' rules',
    DecisionPOSet_classification_rules 0 example_store
    = (Ok rules, example_store)
    ∧ DecisionPOSet__delitem__ 0 (KInt (-1)) example_store = (Ok tt, h')
    ∧ DecisionPOSet_classification_rules 0 h' = (Ok rules', h')
    ∧ DecisionPOSet__len__ 0 h' = (Ok 2, h')
    ∧ rules' = delete 2 rules.
Proof.
  destruct (DecisionPOSet__delitem___integer example_store 0
              (mkDecisionPOSet 0 0
                 (elements_to_index_map (premise <$> example_rules)) true)
              (mkPOSet (premise <$> example_rules) compare_set_function true)
              (target <$> example_rules) (-1)%Z None None
              eq_refl eq_refl eq_refl eq_refl)
    as (rules & Hrules & _ & Hin & _ & _).
  destruct Hin as (h' & rules' & Hrun & Hrules' & Hlen & Heq & _).
  { split; [discriminate|reflexivity]. }
  exists rules, h', rules'.
  split_and!; [exact Hrules|exact Hrun|exact Hrules'|exact Hlen|exact Heq].
Defined.

Lemma DecisionPOSet__delitem___half_done_witness :
  ∃ h',
    DecisionPOSet__delitem__ 0 (KInt 1) short_targets_store
    = (Raise IndexError, h')
    ∧ DecisionPOSet__len__ 0 h' = (Ok 1, h')
    ∧ lists h' = lists short_targets_store
    ∧ dposets h' = dposets short_targets_store.
Proof.
  edestruct (DecisionPOSet__delitem___half_done short_targets_store 0)
    with (i := 1) as (h' & Hrun & _ & Hlen & Hlists & Hd);
    [reflexivity|reflexivity|reflexivity|vm_compute; lia|].
  exists h'. split_and!; [exact Hrun|exact Hlen|exact Hlists|exact Hd].
Defined.

Lemma premises_stay_distinct_witness :
  unique_premises example_store 0
  ∧ unique_premises
      (DecisionPOSet_add 0 (mkRule ["a"] "no") true example_store).2 0
  ∧ unique_premises
      (DecisionPOSet_add 0 (mkRule ["c"] "no") true example_store).2 0
  ∧ unique_premises
      (DecisionPOSet__delitem__ 0 (KInt 5) example_store).2 0.
Proof.
  assert (Hex : unique_premises example_store 0).
  { destruct (premises_stay_distinct empty_store example_store 0 (Ok tt)
                (Some example_rules) None None true compare_set_function
                None (mkRule [] "") true (KInt 0)) as (Hinit & _).
    apply Hinit; [discriminate|reflexivity]. }
  split_and!.
  - exact Hex.
  - destruct (premises_stay_distinct example_store
                (DecisionPOSet_add 0 (mkRule ["a"] "no") true example_store).2
                0
                (DecisionPOSet_add 0 (mkRule ["a"] "no") true example_store).1
                None None None true compare_set_function
                None (mkRule ["a"] "no") true (KInt 0)) as (_ & Hadd & _).
    apply Hadd; [exact Hex|apply surjective_pairing].
  - destruct (premises_stay_distinct example_store
                (DecisionPOSet_add 0 (mkRule ["c"] "no") true example_store).2
                0
                (DecisionPOSet_add 0 (mkRule ["c"] "no") true example_store).1
                None None None true compare_set_function
                None (mkRule ["c"] "no") true (KInt 0)) as (_ & Hadd & _).
    apply Hadd; [exact Hex|apply surjective_pairing].
  - destruct (premises_stay_distinct example_store
                (DecisionPOSet__delitem__ 0 (KInt 5) example_store).2
                0
                (DecisionPOSet__delitem__ 0 (KInt 5) example_store).1
                None None None true compare_set_function
                None (mkRule [] "") true (KInt 5)) as (_ & _ & Hdel).
    apply Hdel; [exact Hex|apply surjective_pairing].
Defined.

(** ** More on the converter *)

Lemma rmap_Forall2 {X Y} (f : X → result Y) l l' :
  rmap f l = Ok l' → Forall2 (λ x y, f x = Ok y) l l'.
Proof.
  revert l'. induction l as [|x l IH]; intros l' Hl; simpl in Hl.
  - inversion Hl. constructor.
  - apply rbind_ok in Hl as (y & Hy & Hl).
    apply rbind_ok in Hl as (ys & Hys & Hl).
    inversion Hl; subst. constructor; [done|by apply IH].
Qed.

Lemma list_index_ok `{EqDecision X} (l : list X) x i :
  list_index l x = Ok i →
  l !! i = Some x ∧ ∀ j, j < i → l !! j ≠ Some x.
Proof.
  unfold list_index.
  destruct (list_find _ _) as [[j y]|] eqn:Hfind; [|done].
  intros [= <-]. apply list_find_Some in Hfind as (Hj & -> & Hmin).
  split; [done|]. intros k Hk Hl. by eapply Hmin.
Qed.

Lemma lattice_of_concepts context orig copy L i c :
  lattice_of context orig copy = Ok L → concepts L !! i = Some c →
  ∃ p, poset_elements copy !! i = Some p
       ∧ FormalContext_extension context p = Ok (extent c)
       ∧ FormalContext_intention context (extent c) = Ok (intent c)
       ∧ rmap (list_index (object_names context)) (extent c)
         = Ok (extent_i c)
       ∧ rmap (list_index (attribute_names context)) (intent c)
         = Ok (intent_i c).
Proof.
  unfold lattice_of. intros HL Hc.
  apply rbind_ok in HL as (extents & Hextents & HL).
  apply rbind_ok in HL as (intents & Hintents & HL).
  apply rbind_ok in HL as (extents_i & Hextents_i & HL).
  apply rbind_ok in HL as (intents_i & Hintents_i & HL).
  apply rbind_ok in HL as (cs & Hcs & HL).
  inversion HL; subst L; clear HL. cbn [concepts] in Hc.
  destruct (rmap_lookup _ _ _ _ _ Hcs Hc) as (c_i & Hc_i & Hmk).
  apply lookup_seq in Hc_i as [-> _]. simpl in Hmk.
  apply rbind_ok in Hmk as (ei & Hei & Hmk).
  apply rbind_ok in Hmk as (e & He & Hmk).
  apply rbind_ok in Hmk as (ii & Hii & Hmk).
  apply rbind_ok in Hmk as (it & Hit & Hmk).
  inversion Hmk; subst c; clear Hmk.
  cbn [extent intent extent_i intent_i].
  apply getitem_ok in Hei, He, Hii, Hit.
  destruct (rmap_lookup _ _ _ _ _ Hintents Hit) as (e' & He' & Hint).
  rewrite He in He'. inversion He'; subst e'.
  destruct (rmap_lookup _ _ _ _ _ Hextents He) as (p & Hp & Hext).
  destruct (rmap_lookup _ _ _ _ _ Hextents_i Hei) as (e2 & He2 & Hexti).
  rewrite He in He2. inversion He2; subst e2.
  destruct (rmap_lookup _ _ _ _ _ Hintents_i Hii) as (it' & Hit' & Hinti).
  rewrite Hit in Hit'. inversion Hit'; subst it'.
  eauto 10.
Qed.

Section ConverterFacts2.
Context {T : Type} `{EqDecision T}.
Implicit Types (h : store (list string) T) (d : DecisionPOSet (list string)).
Implicit Types (ps : POSet (list string)) (context : FormalContext).

(** X13.  In every lattice the conversion returns, the index tuples of a
    concept name its extent and its intent: [extent_i] has an index for each
    object of [extent], in order, and that index is the first position of
    the object in [context.object_names]; likewise [intent_i] and
    [context.attribute_names]. *)
Theorem conversion_indices_name_the_sets context dt h d ps L h' c :
  dposets h !! dt = Some d → posets h !! _premises d = Some ps →
  concept_lattice_from_decision_tree context dt h = (Ok L, h') →
  c ∈ concepts L →
  Forall2 (λ i g, object_names context !! i = Some g
                  ∧ ∀ j, j < i → object_names context !! j ≠ Some g)
          (extent_i c) (extent c)
  ∧ Forall2 (λ i m, attribute_names context !! i = Some m
                    ∧ ∀ j, j < i → attribute_names context !! j ≠ Some m)
            (intent_i c) (intent c).
Proof.
  intros Hd Hps Hrun Hc.
  destruct (conversion_ok context dt h d ps L h' Hd Hps Hrun)
    as (copy & _ & HL).
  apply list_elem_of_lookup in Hc as [i Hi].
  destruct (lattice_of_concepts _ _ _ _ _ _ HL Hi)
    as (p & _ & _ & _ & Hei & Hii).
  split.
  - apply Forall2_flip. eapply Forall2_impl; [by apply rmap_Forall2|].
    intros g idx. apply list_index_ok.
  - apply Forall2_flip. eapply Forall2_impl; [by apply rmap_Forall2|].
    intros m idx. apply list_index_ok.
Qed.

(** X14.  In every lattice the conversion returns, concept [i] comes from
    premise [i] of the extended premises (the tree's, then the attribute
    list): its extent is made of the objects of the context that have every
    attribute of the premise, its intent of the attributes of the context
    that every object of the extent has, and the intent contains the
    premise. *)
Theorem conversion_concept_of_premise context dt h d ps L h' i c :
  dposets h !! dt = Some d → posets h !! _premises d = Some ps →
  concept_lattice_from_decision_tree context dt h = (Ok L, h') →
  concepts L !! i = Some c →
  ∃ p,
    (poset_elements ps ++ [attribute_names context]) !! i = Some p
    ∧ (∀ g, g ∈ extent c
            ↔ g ∈ object_names context
              ∧ ∀ m, m ∈ p → incidence context g m = true)
    ∧ (∀ m, m ∈ intent c
            ↔ m ∈ attribute_names context
              ∧ ∀ g, g ∈ extent c → incidence context g m = true)
    ∧ (∀ m, m ∈ p → m ∈ intent c).
Proof.
  intros Hd Hps Hrun Hi.
  destruct (conversion_ok context dt h d ps L h' Hd Hps Hrun)
    as (copy & Hadd & HL).
  destruct (lattice_of_concepts _ _ _ _ _ _ HL Hi)
    as (p & Hp & Hext & Hint & _ & _).
  exists p. split.
  { unfold POSet_add in Hadd.
    destruct (bool_decide _); injection Hadd as <-; [|done].
    by apply lookup_app_l_Some. }
  unfold FormalContext_extension in Hext.
  destruct (bool_decide (Forall _ p)) eqn:Hknown; [|done].
  apply bool_decide_eq_true in Hknown. rewrite Forall_forall in Hknown.
  injection Hext as Hext'.
  unfold FormalContext_intention in Hint.
  destruct (bool_decide (Forall _ (extent c))); [|done].
  injection Hint as Hint'.
  assert (Hg : ∀ g, g ∈ extent c
                 ↔ g ∈ object_names context
                   ∧ ∀ m, m ∈ p → incidence context g m = true).
  { intros g. rewrite <- Hext', list_elem_of_filter, Forall_forall.
    split; intros [? ?]; split; done. }
  assert (Hm : ∀ m, m ∈ intent c
                 ↔ m ∈ attribute_names context
                   ∧ ∀ g, g ∈ extent c → incidence context g m = true).
  { intros m. rewrite <- Hint' at 1.
    rewrite list_elem_of_filter, Forall_forall.
    split; intros [? ?]; split; done. }
  split_and!; [done|done|].
  intros m Hmp. apply Hm. split; [by apply Hknown|].
  intros g Hgc. apply Hg in Hgc as [_ Hall]. by apply Hall.
Qed.

End ConverterFacts2.

Section ConverterFacts3.
Context {T : Type} `{EqDecision T}.
Implicit Types (h : store (list string) T) (d : DecisionPOSet (list string)).
Implicit Types (ps : POSet (list string)) (context : FormalContext).

(** X16.  A tree without premises converts, whatever the context, to the
    lattice of the one concept of the full attribute list: its intent is
    the attribute list, its extent the objects that have every attribute,
    and the dictionary of sub-concepts is empty. *)
Theorem conversion_of_empty_tree context dt h d ps :
  dposets h !! dt = Some d → posets h !! _premises d = Some ps →
  poset_elements ps = [] →
  ∃ L h' c,
    concept_lattice_from_decision_tree context dt h = (Ok L, h')
    ∧ concepts L = [c]
    ∧ intent c = attribute_names context
    ∧ (∀ g, g ∈ extent c
            ↔ g ∈ object_names context
              ∧ ∀ m, m ∈ attribute_names context →
                     incidence context g m = true)
    ∧ subconcepts_dict L = ∅.
Proof.
  intros Hd Hps Hnil.
  destruct (conversion_returns context dt h d ps Hd Hps)
    as (L & h' & Hrun & HL).
  { rewrite Hnil. apply not_elem_of_nil. }
  { rewrite Hnil. constructor. }
  pose proof (lattice_of_ok _ _ _ _ HL) as (Hlen & Hdict & _).
  unfold POSet__len__ in Hlen. cbn [poset_elements] in Hlen.
  rewrite Hnil in Hlen. simpl in Hlen.
  destruct (concepts L) as [|c [|c' cs]] eqn:Hcs; try done.
  assert (Hc : concepts L !! 0 = Some c) by (by rewrite Hcs).
  destruct (lattice_of_concepts _ _ _ _ _ _ HL Hc)
    as (p & Hp & Hext & Hint & _ & _).
  cbn [poset_elements] in Hp. rewrite Hnil in Hp. simpl in Hp.
  inversion Hp; subst p.
  exists L, h', c. split_and!; [done|done| | |].
  - apply intention_extension_full in Hext. congruence.
  - intros g. unfold FormalContext_extension in Hext.
    destruct (bool_decide _); [|done]. injection Hext as Hext.
    rewrite <- Hext, list_elem_of_filter, Forall_forall.
    split; intros [? ?]; split; done.
  - rewrite Hdict.
    unfold POSet_bottom_elements, POSet_direct_sub_elements_dict,
      POSet_indices, POSet__len__.
    rewrite Hnil. reflexivity.
Qed.

End ConverterFacts3.

Lemma example_conversion_returns :
  ∃ L h',
    concept_lattice_from_decision_tree example_context 0 example_store
    = (Ok L, h').
Proof.
  destruct (conversion_returns example_context 0 example_store
              (mkDecisionPOSet 0 0
                 (elements_to_index_map (premise <$> example_rules)) true)
              (mkPOSet (premise <$> example_rules) compare_set_function true)
              eq_refl eq_refl example_premises_new example_premises_known)
    as (L & h' & Hrun & _).
  eauto.
Qed.

Lemma conversion_indices_name_the_sets_witness :
  ∃ L h',
    concept_lattice_from_decision_tree example_context 0 example_store
    = (Ok L, h')
    ∧ ∀ c, c ∈ concepts L →
        Forall2 (λ i g, object_names example_context !! i = Some g
                        ∧ ∀ j, j < i →
                               object_names example_context !! j ≠ Some g)
                (extent_i c) (extent c)
        ∧ Forall2 (λ i m, attribute_names example_context !! i = Some m
                          ∧ ∀ j, j < i →
                                 attribute_names example_context !! j
                                 ≠ Some m)
                  (intent_i c) (intent c).
Proof.
  destruct example_conversion_returns as (L & h' & Hrun).
  exists L, h'. split; [exact Hrun|]. intros c Hc.
  exact (conversion_indices_name_the_sets example_context 0 example_store
           (mkDecisionPOSet 0 0
              (elements_to_index_map (premise <$> example_rules)) true)
           (mkPOSet (premise <$> example_rules) compare_set_function true)
           L h' c eq_refl eq_refl Hrun Hc).
Defined.

Lemma conversion_concept_of_premise_witness :
  ∃ L h' c,
    concept_lattice_from_decision_tree example_context 0 example_store
    = (Ok L, h')
    ∧ concepts L !! 1 = Some c
    ∧ (∀ g, g ∈ extent c
            ↔ g ∈ object_names example_context
              ∧ ∀ m, m ∈ ["a"; "b"] → incidence example_context g m = true)
    ∧ (∀ m, m ∈ ["a"; "b"] → m ∈ intent c).
Proof.
  destruct example_conversion_returns as (L & h' & Hrun).
  destruct (lookup_lt_is_Some_2 (concepts L) 1) as [c Hc].
  { pose proof (conversion_ok_new example_context 0 example_store
                  (mkDecisionPOSet 0 0
                     (elements_to_index_map (premise <$> example_rules)) true)
                  (mkPOSet (premise <$> example_rules) compare_set_function
                     true)
                  L h' eq_refl eq_refl example_premises_new Hrun) as HL.
    apply lattice_of_ok in HL as (Hlen & _). rewrite Hlen.
    vm_compute. lia. }
  destruct (conversion_concept_of_premise example_context 0 example_store
              (mkDecisionPOSet 0 0
                 (elements_to_index_map (premise <$> example_rules)) true)
              (mkPOSet (premise <$> example_rules) compare_set_function true)
              L h' 1 c eq_refl eq_refl Hrun Hc)
    as (p & Hp & Hext & _ & Hsub).
  injection Hp as <-.
  exists L, h', c. split_and!; [exact Hrun|exact Hc|exact Hext|exact Hsub].
Defined.

Lemma conversion_of_empty_tree_witness :
  ∃ L h' c,
    concept_lattice_from_decision_tree example_context 0 empty_tree_store
    = (Ok L, h')
    ∧ concepts L = [c]
    ∧ intent c = ["a"; "b"; "c"]
    ∧ subconcepts_dict L = ∅.
Proof.
  edestruct (conversion_of_empty_tree example_context 0 empty_tree_store)
    as (L & h' & c & Hrun & Hcs & Hint & _ & Hdict);
    [reflexivity|reflexivity|reflexivity|].
  exists L, h', c. split_and!; [exact Hrun|exact Hcs|exact Hint|exact Hdict].
Defined.

(** ** Composition *)

Section AddDeleteFacts.
Context {P T : Type} `{Countable P} `{EqDecision T}.
Implicit Types (h : store P T) (d : DecisionPOSet P) (ps : POSet P).
Implicit Types (ts : list T) (element : ClassificationRule P T).

(** X18.  On a decision poset whose premises and targets have the same
    length, [add] of a rule with a new premise followed by [del dp[-1]]
    gives back the rules and the length there were before the two calls. *)
Theorem add_then_delete_last h self d ps ts element fill_up_cache :
  dposets h !! self = Some d → posets h !! _premises d = Some ps →
  lists h !! _targets d = Some ts →
  premise element ∉ poset_elements ps →
  length (poset_elements ps) = length ts →
  ∃ h' rules,
    (DecisionPOSet_add self element fill_up_cache ;;
     DecisionPOSet__delitem__ self (KInt (-1))) h = (Ok tt, h')
    ∧ DecisionPOSet_classification_rules self h = (Ok rules, h)
    ∧ DecisionPOSet_classification_rules self h' = (Ok rules, h')
    ∧ DecisionPOSet__len__ self h = (Ok (length rules), h)
    ∧ DecisionPOSet__len__ self h' = (Ok (length rules), h').
Proof.
  intros Hd Hps Hts Hnew Hlen.
  set (ps1 := mkPOSet (poset_elements ps ++ [premise element])
                      (leq_func ps) (use_cache ps)).
  set (ts1 := ts ++ [target element]).
  set (h1 := updated h self d ps1 ts1).
  set (d1 := mkDecisionPOSet (_premises d) (_targets d)
               (elements_to_index_map (poset_elements ps1)) (_use_cache d)).
  assert (Hadd : DecisionPOSet_add self element fill_up_cache h = (Ok tt, h1)).
  { rewrite (run_add h self d ps ts element fill_up_cache Hd Hps Hts).
    unfold POSet_add. by rewrite bool_decide_eq_false_2. }
  assert (Hd1 : dposets h1 !! self = Some d1) by apply lookup_insert_eq.
  assert (Hps1 : posets h1 !! _premises d1 = Some ps1)
    by apply lookup_insert_eq.
  assert (Hts1 : lists h1 !! _targets d1 = Some ts1)
    by apply lookup_insert_eq.
  assert (Hlen1 : length (poset_elements ps1) = length ts1).
  { unfold ps1, ts1. cbn [poset_elements]. rewrite !length_app. simpl. lia. }
  destruct (delitem_on_rules h1 self d1 ps1 ts1 Hd1 Hps1 Hts1 Hlen1)
    as (rules1 & Hrules1 & Hrlen1 & Hdel).
  assert (Hzip : zip_with mkRule (poset_elements ps1) ts1
                 = zip_with mkRule (poset_elements ps) ts ++ [element]).
  { unfold ps1, ts1. cbn [poset_elements].
    rewrite zip_with_app by done. by destruct element. }
  rewrite (run_rules h1 self d1 ps1 ts1 Hd1 Hps1 Hts1), Hzip in Hrules1.
  injection Hrules1 as <-.
  assert (Hrl : length (zip_with mkRule (poset_elements ps) ts) = length ts).
  { rewrite length_zip_with. lia. }
  destruct (Hdel (-1)%Z) as [Hok _].
  destruct (Hok (zip_with mkRule (poset_elements ps) ts))
    as (h' & Hrun & Hrules' & Hlen').
  { rewrite delitem_int, length_app. simpl.
    rewrite bool_decide_eq_true_2 by lia. f_equal.
    unfold position. simpl.
    replace (Z.to_nat _) with (length (zip_with mkRule (poset_elements ps) ts))
      by lia.
    rewrite delete_take_drop, take_app_length.
    rewrite drop_ge by (rewrite length_app; simpl; lia).
    by rewrite app_nil_r. }
  exists h', (zip_with mkRule (poset_elements ps) ts). split_and!.
  - unfold bind. by rewrite Hadd.
  - by apply (run_rules h self d ps ts).
  - done.
  - rewrite (run_len h self d ps Hd Hps). repeat f_equal. lia.
  - done.
Qed.

End AddDeleteFacts.

Lemma add_then_delete_last_witness :
  ∃ h' rules,
    (DecisionPOSet_add 0 (mkRule ["b"] "no") true ;;
     DecisionPOSet__delitem__ 0 (KInt (-1))) example_store = (Ok tt, h')
    ∧ DecisionPOSet_classification_rules 0 example_store
      = (Ok rules, example_store)
    ∧ DecisionPOSet_classification_rules 0 h' = (Ok rules, h')
    ∧ DecisionPOSet__len__ 0 h' = (Ok (length rules), h').
Proof.
  destruct (add_then_delete_last example_store 0
              (mkDecisionPOSet 0 0
                 (elements_to_index_map (premise <$> example_rules)) true)
              (mkPOSet (premise <$> example_rules) compare_set_function true)
              (target <$> example_rules) (mkRule ["b"] "no") true
              eq_refl eq_refl eq_refl)
    as (h' & rules & Hrun & Hbefore & Hafter & _ & Hlen).
  - apply (bool_decide_unpack _). vm_compute. exact I.
  - reflexivity.
  - exists h', rules.
    split_and!; [exact Hrun|exact Hbefore|exact Hafter|exact Hlen].
Defined.
